(** * GitHub autocomplete: search gateway, query orchestrator and
      interaction state machine

    A shallow embedding of [src/lib/github.ts] and
    [src/components/autocomplete.tsx].

    - [JS] gathers the few pieces of the JavaScript runtime the code
      relies on: string length and truthiness, [String.prototype.localeCompare]
      and [Array.prototype.sort], the last two through the contract
      ECMAScript gives them.
    - [Github] is the search gateway ([searchUsers], [searchRepositories]).
    - [Orchestrator] is the [useAutocomplete] hook.
    - [Widget] is the [Autocomplete] component: its handlers, its effects
      and what [SearchResults] renders. *)

From Stdlib Require Import List ZArith Bool Lia String Ascii.
From Stdlib Require Import Permutation Sorted.
From Stdlib Require Import DecimalString OrderedTypeEx.
From Stdlib Require DecimalZ DecimalPos.
Import ListNotations.

Local Open Scope string_scope.
Local Open Scope Z_scope.

(* ================================================================= *)
(** ** The JavaScript runtime *)

Module JS.

(** [s.length]: a string is taken as its sequence of code units, one
    character of the model for each. *)
Definition length (s : string) : Z := Z.of_nat (String.length s).

(** [!s]: the empty string is the only falsy string. *)
Definition falsy (s : string) : bool :=
  match s with
  | EmptyString => true
  | String _ _ => false
  end.

(** [n.toString()] for an integral number. *)
Definition toString (n : Z) : string :=
  NilZero.string_of_int (Z.to_int n).

(** [o ?? d] *)
Definition nullish {A : Type} (o : option A) (d : A) : A :=
  match o with
  | Some a => a
  | None => d
  end.

(** A value caught by [catch] or held in a query's [error]: an [Error]
    object with its [message], or anything else that was thrown. *)
Inductive ErrorValue : Type :=
| Error (message : string)
| Thrown (description : string).

(** *** Comparators *)

Definition Comparator (A : Type) : Type := A -> A -> Z.

(** ECMAScript's "consistent comparator", on the values of [l]: the
    sign is antisymmetric and "not after" is transitive. *)
Definition consistent_on {A : Type} (cmp : Comparator A) (l : list A)
  : Prop :=
  (forall a b, In a l -> In b l -> Z.sgn (cmp a b) = - Z.sgn (cmp b a))
  /\ (forall a b c, In a l -> In b l -> In c l ->
        cmp a b <= 0 -> cmp b c <= 0 -> cmp a c <= 0).

(** [String.prototype.localeCompare]: the values are implementation
    defined, but the function is required to be a consistent
    comparator on all strings. *)
Class Collator : Type := {
  localeCompare : string -> string -> Z;
  localeCompare_antisym :
    forall a b, Z.sgn (localeCompare a b) = - Z.sgn (localeCompare b a);
  localeCompare_trans :
    forall a b c, localeCompare a b <= 0 -> localeCompare b c <= 0 ->
                  localeCompare a c <= 0
}.

(** *** Insertion sort, as the engines run it on an array

    The sorted prefix is kept reversed, so that its head is the element
    just left of the one being inserted. [moves item prev] says whether
    [item] is moved to the left of [prev]. *)

Section Insertion.
Context {A : Type}.
Variable moves : A -> A -> bool.

Fixpoint insert_back (item : A) (prefix : list A) : list A :=
  match prefix with
  | [] => [item]
  | prev :: rest =>
      if moves item prev then prev :: insert_back item rest
      else item :: prev :: rest
  end.

Definition insertion_sort (l : list A) : list A :=
  rev (fold_left (fun prefix item => insert_back item prefix) l []).
End Insertion.

(** The reference stable sort: [item] moves left of [prev] exactly when
    [cmp prev item > 0]. *)
Definition stable_sort {A : Type} (cmp : Comparator A) : list A -> list A :=
  insertion_sort (fun item prev => 0 <? cmp prev item).

(** The same loop with the comparator called the other way round:
    [item] moves left of [prev] exactly when [cmp item prev < 0]. *)
Definition stable_sort_swapped {A : Type} (cmp : Comparator A)
  : list A -> list A :=
  insertion_sort (fun item prev => cmp item prev <? 0).

(** [Array.prototype.sort]: always a permutation of the array; with a
    consistent comparator, the stable sort. With any other comparator
    the order is left to the implementation. *)
Class ArraySort : Type := {
  sort : forall A : Type, Comparator A -> list A -> list A;
  sort_permutation :
    forall (A : Type) (cmp : Comparator A) (l : list A),
      Permutation (sort A cmp l) l;
  sort_consistent :
    forall (A : Type) (cmp : Comparator A) (l : list A),
      consistent_on cmp l -> sort A cmp l = stable_sort cmp l
}.

(** [a.slice(0, n)] *)
Definition slice0 {A : Type} (n : nat) (l : list A) : list A := firstn n l.

End JS.

(* ================================================================= *)
(** ** src/lib/github.ts *)

Module Github.
Import JS.

Inductive SearchResultType : Type := USER | REPOSITORY.

(** [name] is declared [string]; the orchestrator's comparator reads it
    with [?.] and [??], so an absent name is representable here. *)
Record UserResult : Type := {
  user_id : string;
  user_name : option string;
  user_url : string;
  avatar : option string
}.

Record RepositoryResult : Type := {
  repo_id : string;
  repo_name : option string;
  repo_url : string;
  owner : option string;
  ownerAvatar : option string;
  description : option string;
  stars : option Z;
  forks : option Z;
  language : option string
}.

Inductive SearchResult : Type :=
| OfUser (u : UserResult)
| OfRepository (r : RepositoryResult).

Definition id (r : SearchResult) : string :=
  match r with OfUser u => user_id u | OfRepository p => repo_id p end.

Definition name (r : SearchResult) : option string :=
  match r with OfUser u => user_name u | OfRepository p => repo_name p end.

Definition type (r : SearchResult) : SearchResultType :=
  match r with OfUser _ => USER | OfRepository _ => REPOSITORY end.

Definition url (r : SearchResult) : string :=
  match r with OfUser u => user_url u | OfRepository p => repo_url p end.

(** The items of the two REST search responses. *)
Record GitHubUser : Type := {
  gh_user_id : Z;
  login : string;
  gh_user_html_url : string;
  avatar_url : string
}.

Record GitHubOwner : Type := {
  owner_login : string;
  owner_avatar_url : string
}.

Record GitHubRepo : Type := {
  gh_repo_id : Z;
  gh_repo_name : string;
  gh_repo_html_url : string;
  gh_repo_owner : option GitHubOwner;
  gh_repo_description : option string;
  stargazers_count : Z;
  forks_count : Z;
  gh_repo_language : option string
}.

Definition mapGitHubUserToResult (user : GitHubUser) : SearchResult :=
  OfUser {| user_id := toString (gh_user_id user);
            user_name := Some (login user);
            user_url := gh_user_html_url user;
            avatar := Some (avatar_url user) |}.

Definition mapGitHubRepoToResult (repo : GitHubRepo) : SearchResult :=
  OfRepository
    {| repo_id := toString (gh_repo_id repo);
       repo_name := Some (gh_repo_name repo);
       repo_url := gh_repo_html_url repo;
       owner := option_map owner_login (gh_repo_owner repo);
       ownerAvatar := option_map owner_avatar_url (gh_repo_owner repo);
       description := gh_repo_description repo;
       stars := Some (stargazers_count repo);
       forks := Some (forks_count repo);
       language := gh_repo_language repo |}.

(** *** Asynchronous calls

    A call is run to completion: it leaves the trace of what it did to
    the outside world and settles, fulfilled or rejected. *)

Record SearchParams : Type := {
  q : string;
  per_page : Z;
  sort_key : string;
  order : string
}.

Inductive Endpoint : Type := SearchUsers | SearchRepos.

Inductive IO : Type :=
| RemoteCall (endpoint : Endpoint) (params : SearchParams)
| ConsoleError (label : string) (error : ErrorValue).

Inductive Outcome (A : Type) : Type :=
| Fulfilled (value : A)
| Rejected (error : ErrorValue).
Arguments Fulfilled {A} value.
Arguments Rejected {A} error.

Definition Async (A : Type) : Type := (list IO * Outcome A)%type.

Definition ret {A : Type} (a : A) : Async A := ([], Fulfilled a).

Definition throw {A : Type} (e : ErrorValue) : Async A := ([], Rejected e).

Definition bind {A B : Type} (m : Async A) (k : A -> Async B) : Async B :=
  match m with
  | (t, Fulfilled a) => let (t', o) := k a in ((t ++ t')%list, o)
  | (t, Rejected e) => (t, Rejected e)
  end.

Definition try_catch {A : Type} (m : Async A)
           (handler : ErrorValue -> Async A) : Async A :=
  match m with
  | (t, Fulfilled a) => (t, Fulfilled a)
  | (t, Rejected e) => let (t', o) := handler e in ((t ++ t')%list, o)
  end.

Notation "x <- m ;; k" := (bind m (fun x => k))
  (at level 61, m at next level, right associativity).

Definition console_error (label : string) (e : ErrorValue) : Async unit :=
  ([ConsoleError label e], Fulfilled tt).

(** The Octokit client: what each endpoint answers to a request. *)
Record Octokit : Type := {
  rest_search_users : SearchParams -> Outcome (list GitHubUser);
  rest_search_repos : SearchParams -> Outcome (list GitHubRepo)
}.

Definition await_users (github : Octokit) (p : SearchParams)
  : Async (list GitHubUser) :=
  ([RemoteCall SearchUsers p], rest_search_users github p).

Definition await_repos (github : Octokit) (p : SearchParams)
  : Async (list GitHubRepo) :=
  ([RemoteCall SearchRepos p], rest_search_repos github p).

Definition searchUsers (github : Octokit) (query : string)
  : Async (list SearchResult) :=
  if falsy query || (length query <? 3) then ret []
  else
    try_catch
      (items <- await_users github
                  {| q := query; per_page := 50;
                     sort_key := "followers"; order := "desc" |} ;;
       ret (map mapGitHubUserToResult items))
      (fun error =>
         _ <- console_error "Error searching GitHub users:" error ;;
         throw error).

Definition searchRepositories (github : Octokit) (query : string)
  : Async (list SearchResult) :=
  if falsy query || (length query <? 3) then ret []
  else
    try_catch
      (items <- await_repos github
                  {| q := query; per_page := 50;
                     sort_key := "stars"; order := "desc" |} ;;
       ret (map mapGitHubRepoToResult items))
      (fun error =>
         _ <- console_error "Error searching GitHub repositories:" error ;;
         throw error).

(** The remote calls a run performed. *)
Definition remote_calls {A : Type} (run : Async A) : list IO :=
  filter (fun io => match io with RemoteCall _ _ => true | _ => false end)
         (fst run).

End Github.

(* ================================================================= *)
(** ** src/components/autocomplete.tsx: [useAutocomplete] *)

Module Orchestrator.
Import JS Github.

(** What [useQueries] hands back for one query. *)
Record UseQueryResult : Type := {
  data : option (list SearchResult);
  isLoading : bool;
  isFetching : bool;
  error : option ErrorValue
}.

(** [enabled: query.length >= 3] *)
Definition enabled (query : string) : bool := 3 <=? length query.

Record Autocompletion : Type := {
  results : list SearchResult;
  loading : bool;
  fetching : bool;
  failure : option ErrorValue
}.

Section UseAutocomplete.
Context {engine : ArraySort} {collator : Collator}.

(** [(a, b) => a.name?.localeCompare(b.name ?? '') ?? 0], the second
    operand defaulting to the empty string. *)
Definition compareByName : Comparator SearchResult :=
  fun a b =>
    match name a with
    | Some a_name => localeCompare a_name (nullish (name b) EmptyString)
    | None => 0
    end.

Definition merge (users repositories : list SearchResult)
  : list SearchResult :=
  slice0 50 (sort _ compareByName (users ++ repositories)%list).

Definition useAutocomplete (usersQuery reposQuery : UseQueryResult)
  : Autocompletion :=
  let users := nullish (data usersQuery) [] in
  let repositories := nullish (data reposQuery) [] in
  {| results := merge users repositories;
     loading := isLoading usersQuery || isLoading reposQuery;
     fetching := isFetching usersQuery || isFetching reposQuery;
     failure := match error usersQuery with
                | Some e => Some e
                | None => error reposQuery
                end |}.
End UseAutocomplete.

(** *** The merge as the specification words it

    Every entry is compared through its name, an absent name standing
    for the empty string; the concatenation is sorted ascending and cut
    to 50 entries. *)

Definition name_or_empty (r : SearchResult) : string :=
  nullish (name r) EmptyString.

Definition compare_names {collator : Collator} : Comparator SearchResult :=
  fun a b => localeCompare (name_or_empty a) (name_or_empty b).

Definition spec_merge {collator : Collator}
           (accounts repositories : list SearchResult)
  : list SearchResult :=
  firstn 50 (stable_sort compare_names (accounts ++ repositories)%list).

(** [a] is not after [b] in name order. *)
Definition name_le {collator : Collator} (a b : SearchResult) : Prop :=
  compare_names a b <= 0.

End Orchestrator.

(* ================================================================= *)
(** ** src/components/autocomplete.tsx: the [Autocomplete] component *)

Module Widget.
Import JS Github.

Record State : Type := {
  query : string;
  selectedIndex : Z;
  focused : bool
}.

Definition initial : State :=
  {| query := EmptyString; selectedIndex := -1; focused := false |}.

Definition setQuery (v : string) (s : State) : State :=
  {| query := v; selectedIndex := selectedIndex s; focused := focused s |}.

Definition setSelectedIndex (f : Z -> Z) (s : State) : State :=
  {| query := query s; selectedIndex := f (selectedIndex s);
     focused := focused s |}.

Definition setFocused (b : bool) (s : State) : State :=
  {| query := query s; selectedIndex := selectedIndex s; focused := b |}.

(** What the hooks give the component on a render:
    [useDebounceValue(query, 300)] and [useAutocomplete(debouncedQuery)]. *)
Record Hooks : Type := {
  debouncedQuery : string;
  results : list SearchResult;
  fetching : bool;
  error : option ErrorValue
}.

(** [const { results, fetching, error } = useAutocomplete(debouncedQuery)] *)
Definition useHooks (debounced : string) (a : Orchestrator.Autocompletion)
  : Hooks :=
  {| debouncedQuery := debounced;
     results := Orchestrator.results a;
     fetching := Orchestrator.fetching a;
     error := Orchestrator.failure a |}.

(** [results.length] *)
Definition results_length (h : Hooks) : Z :=
  Z.of_nat (List.length (results h)).

(** [results[i]] *)
Definition at_index {A : Type} (l : list A) (i : Z) : option A :=
  if i <? 0 then None else nth_error l (Z.to_nat i).

Inductive Key : Type :=
| ArrowDown
| ArrowUp
| Enter
| Escape
| OtherKey (key : string).

Inductive Effect : Type :=
| PreventDefault
| WindowOpen (target_url : string) (target : string)
| InputBlur
| ScrollIntoView (index : Z).

(** [useEffect(() => { if (!fetching) setSelectedIndex(-1) }, [fetching])] *)
Definition fetchingEffect (h : Hooks) (s : State) : State :=
  if negb (fetching h) then setSelectedIndex (fun _ => -1) s else s.

Definition navigateDown (h : Hooks) (s : State) : State :=
  setSelectedIndex
    (fun prev => if prev <? results_length h - 1 then prev + 1 else prev) s.

Definition navigateUp (s : State) : State :=
  setSelectedIndex (fun prev => if 0 <? prev then prev - 1 else 0) s.

Definition handleSelectResult (result : SearchResult) : list Effect :=
  [WindowOpen (url result) "_blank"; InputBlur].

Definition handleMouseEnter (index : Z) (s : State) : State :=
  setSelectedIndex (fun _ => index) s.

Definition handleQueryChange (value : string) (s : State) : State :=
  setQuery value s.

(** In the Enter case the test on [selectedIndex] guarantees that
    [results[selectedIndex]] is an entry, so the [None] branch of the
    lookup is never taken ([enter_in_range] below). *)
Definition handleKeyDown (h : Hooks) (s : State) (key : Key)
  : State * list Effect :=
  if (results_length h =? 0) || fetching h then (s, [])
  else
    match key with
    | ArrowDown => (navigateDown h s, [PreventDefault])
    | ArrowUp => (navigateUp s, [PreventDefault])
    | Enter =>
        (s, PreventDefault ::
              (if (0 <=? selectedIndex s)
                  && (selectedIndex s <? results_length h)
               then match at_index (results h) (selectedIndex s) with
                    | Some result => handleSelectResult result
                    | None => []
                    end
               else []))
    | Escape => (setFocused false s, [PreventDefault; InputBlur])
    | OtherKey _ => (s, [])
    end.

(** The [mousedown] listener on the document; [inside] says whether the
    container contains the event's target. *)
Definition handleClickOutside (inside : bool) (s : State) : State :=
  if negb inside then setFocused false s else s.

(** *** What is rendered *)

Record Row : Type := {
  row_result : SearchResult;
  selected : bool
}.

Inductive PanelItem : Type :=
| ErrorMessage (text : string)
| NoResultsFound (for_query : string)
| ResultList (dimmed : bool) (rows : list Row)
| TypeAtLeast3.

Definition error_text (e : ErrorValue) : string :=
  match e with
  | Error message => message
  | Thrown _ =>
      "Failed to fetch results. GitHub API rate limit may have been exceeded."
  end.

Fixpoint rows_from (index : Z) (selectedIndex : Z) (l : list SearchResult)
  : list Row :=
  match l with
  | [] => []
  | result :: rest =>
      {| row_result := result; selected := index =? selectedIndex |}
        :: rows_from (index + 1) selectedIndex rest
  end.

Definition when {A : Type} (b : bool) (x : A) : list A :=
  if b then [x] else [].

Definition is_some {A : Type} (o : option A) : bool :=
  match o with Some _ => true | None => false end.

(** [SearchResults]: [None] is the [null] it returns while the first
    results are being fetched. *)
Definition SearchResults (h : Hooks) (selectedIndex : Z)
  : option (list PanelItem) :=
  if fetching h && (results_length h =? 0) then None
  else
    Some
      ((match error h with
        | Some e => [ErrorMessage (error_text e)]
        | None => []
        end)
       ++ when (negb (is_some (error h))
                && (3 <? length (debouncedQuery h))
                && (results_length h =? 0))
               (NoResultsFound (debouncedQuery h))
       ++ when (0 <? results_length h)
               (ResultList (fetching h)
                           (rows_from 0 selectedIndex (results h)))
       ++ when (length (debouncedQuery h) <? 3) TypeAtLeast3)%list.

Record View : Type := {
  input_value : string;
  spinner : bool;
  panel : option (list PanelItem)
}.

Definition render (h : Hooks) (s : State) : View :=
  {| input_value := query s;
     spinner := fetching h;
     panel := if focused s then SearchResults h (selectedIndex s)
              else None |}.

(** The rows on screen. *)
Definition visible_rows (h : Hooks) (s : State) : list Row :=
  match panel (render h s) with
  | Some items =>
      flat_map (fun item => match item with
                            | ResultList _ rows => rows
                            | _ => []
                            end) items
  | None => []
  end.

(** *** Events *)

Inductive Event : Type :=
| Change (value : string)
| Focus
| KeyDown (key : Key)
| MouseEnterRow (index : nat)
| ClickRow (index : nat)
| DocumentMouseDown (inside : bool).

(** [useEffect(..., [selectedIndex])]: after a render in which the
    cursor changed, the selected row is scrolled into view. *)
Definition scrollEffect (h : Hooks) (before after : State) : list Effect :=
  if selectedIndex before =? selectedIndex after then []
  else if (0 <=? selectedIndex after)
          && Nat.ltb 0 (List.length (visible_rows h after))
          && (selectedIndex after <? results_length h)
       then [ScrollIntoView (selectedIndex after)]
       else [].

Definition handle (h : Hooks) (s : State) (e : Event)
  : State * list Effect :=
  match e with
  | Change value => (handleQueryChange value s, [])
  | Focus => (setFocused true s, [])
  | KeyDown key => handleKeyDown h s key
  | MouseEnterRow index =>
      match nth_error (visible_rows h s) index with
      | Some _ => (handleMouseEnter (Z.of_nat index) s, [])
      | None => (s, [])
      end
  | ClickRow index =>
      match nth_error (visible_rows h s) index with
      | Some row => (s, handleSelectResult (row_result row))
      | None => (s, [])
      end
  | DocumentMouseDown inside => (handleClickOutside inside s, [])
  end.

Definition dispatch (h : Hooks) (s : State) (e : Event)
  : State * list Effect :=
  let (s', effects) := handle h s e in
  (s', (effects ++ scrollEffect h s s')%list).

(** A run of key presses against the same results. *)
Fixpoint press (h : Hooks) (s : State) (keys : list Key) : State :=
  match keys with
  | [] => s
  | key :: rest => press h (fst (handleKeyDown h s key)) rest
  end.

(** The machine is idle when the panel may not be shown. *)
Definition Idle (s : State) : Prop := focused s = false.

(** A keyboard command is accepted when there are results and no fetch
    is in flight. *)
Definition accepts (h : Hooks) : bool :=
  negb ((results_length h =? 0) || fetching h).

End Widget.

(* ================================================================= *)
(** ** src/components/autocomplete.tsx: how one result is shown *)

Module Presentation.
Import JS Github.

(** A string that is present and not empty: what [&&] and [if] take
    for true. *)
Definition truthy (o : option string) : bool :=
  match o with
  | Some (String _ _) => true
  | _ => false
  end.

(** A template literal's rendering of a value that may be undefined. *)
Definition interpolate (o : option string) : string :=
  nullish o "undefined".

Inductive Icon : Type :=
| AvatarImage (src : string) (alt : string)
| UserIcon
| BookOpenIcon.

(** [ResultIcon] *)
Definition ResultIcon (result : SearchResult) : Icon :=
  match result with
  | OfUser u =>
      match avatar u with
      | Some (String c rest) =>
          AvatarImage (String c rest)
                      (interpolate (user_name u) ++ "'s avatar")
      | _ => UserIcon
      end
  | OfRepository _ => BookOpenIcon
  end.

(** The pieces of [RepositoryDetails], in the order they are laid out.
    The two counts are shown through [toLocaleString], which is the
    badge's business. *)
Inductive Detail : Type :=
| DescriptionLine (text : string)
| OwnerBadge (login : string)
| StarsBadge (count : Z)
| ForksBadge (count : Z)
| LanguageBadge (language : string).

Definition if_truthy (o : option string) (piece : string -> Detail)
  : list Detail :=
  match o with
  | Some (String c rest) => [piece (String c rest)]
  | _ => []
  end.

Definition if_defined (o : option Z) (piece : Z -> Detail) : list Detail :=
  match o with
  | Some n => [piece n]
  | None => []
  end.

(** [RepositoryDetails] *)
Definition RepositoryDetails (result : RepositoryResult) : list Detail :=
  (if_truthy (description result) DescriptionLine
   ++ if_truthy (owner result) OwnerBadge
   ++ if_defined (stars result) StarsBadge
   ++ if_defined (forks result) ForksBadge
   ++ if_truthy (language result) LanguageBadge)%list.

(** [SearchResultItem]: the list item of one result. *)
Record Item : Type := {
  icon : Icon;
  label : option string;
  kind : SearchResultType;
  highlighted : bool;
  details : option (list Detail)
}.

Definition SearchResultItem (result : SearchResult) (selected : bool)
  : Item :=
  {| icon := ResultIcon result;
     label := name result;
     kind := type result;
     highlighted := selected;
     details := match result with
                | OfRepository r => Some (RepositoryDetails r)
                | OfUser _ => None
                end |}.

(** The items of a rendered result list. *)
Definition items_of (rows : list Widget.Row) : list Item :=
  map (fun row => SearchResultItem (Widget.row_result row)
                                   (Widget.selected row)) rows.

End Presentation.

(* ================================================================= *)
(** ** Sample data: the fixtures of autocomplete.test.tsx *)

Module Samples.
Import JS Github Orchestrator.

Definition gh_johnsmith : GitHubUser :=
  {| gh_user_id := 1234; login := "johnsmith";
     gh_user_html_url := "https://github.com/johnsmith";
     avatar_url := "https://avatars.githubusercontent.com/u/1234" |}.

Definition gh_janesmith : GitHubUser :=
  {| gh_user_id := 5678; login := "janesmith";
     gh_user_html_url := "https://github.com/janesmith";
     avatar_url := "https://avatars.githubusercontent.com/u/5678" |}.

Definition gh_cool_lib : GitHubRepo :=
  {| gh_repo_id := 2; gh_repo_name := "cool-lib";
     gh_repo_html_url := "https://github.com/janesmith/cool-lib";
     gh_repo_owner :=
       Some {| owner_login := "janesmith";
               owner_avatar_url :=
                 "https://avatars.githubusercontent.com/u/5678" |};
     gh_repo_description := Some "A cool library";
     stargazers_count := 500; forks_count := 50;
     gh_repo_language := Some "JavaScript" |}.

Definition johnsmith : SearchResult := mapGitHubUserToResult gh_johnsmith.
Definition janesmith : SearchResult := mapGitHubUserToResult gh_janesmith.
Definition cool_lib : SearchResult := mapGitHubRepoToResult gh_cool_lib.

(** An entry without a name, which the declared types rule out. *)
Definition nameless : SearchResult :=
  OfRepository
    {| repo_id := "0"; repo_name := None;
       repo_url := "https://github.com/ghost/ghost";
       owner := None; ownerAvatar := None; description := None;
       stars := None; forks := None; language := None |}.

(** A client that answers every request with the same items. *)
Definition github_smith : Octokit :=
  {| rest_search_users := fun _ => Fulfilled [gh_johnsmith];
     rest_search_repos := fun _ => Fulfilled [gh_cool_lib] |}.

(** A client whose requests all fail. *)
Definition github_limited : Octokit :=
  {| rest_search_users := fun _ => Rejected (Error "API rate limit exceeded");
     rest_search_repos := fun _ => Rejected (Error "API rate limit exceeded")
  |}.

(** A client whose account search answers johnsmith, then janesmith
    (more followers first), and whose repository search finds nothing. *)
Definition github_two_smiths : Octokit :=
  {| rest_search_users := fun _ => Fulfilled [gh_johnsmith; gh_janesmith];
     rest_search_repos := fun _ => Fulfilled [] |}.

(** *** Query states *)

(** The account search has resolved with both accounts, in the order
    of the response. *)
Definition two_users_resolved : UseQueryResult :=
  {| data := Some [johnsmith; janesmith]; isLoading := false;
     isFetching := false; error := None |}.

Definition users_resolved : UseQueryResult :=
  {| data := Some [johnsmith]; isLoading := false;
     isFetching := false; error := None |}.

Definition repos_pending : UseQueryResult :=
  {| data := None; isLoading := true; isFetching := true; error := None |}.

(** Both searches settled with no entry and no error. *)
Definition settled_empty : UseQueryResult :=
  {| data := Some [];
     isLoading := false;
     isFetching := false;
     error := None |}.

End Samples.

(** What the component sees on a render, and the states it is in. *)

Module Screens.
Import JS Github Widget.

(** The list of the navigation test: janesmith, johnsmith. *)
Definition two_results : Hooks :=
  {| debouncedQuery := "smith";
     results := [Samples.janesmith; Samples.johnsmith];
     fetching := false;
     error := None |}.

(** The same list while a fetch is in flight. *)
Definition two_results_refetching : Hooks :=
  {| debouncedQuery := "smith";
     results := [Samples.janesmith; Samples.johnsmith];
     fetching := true;
     error := None |}.

(** A settled search that found nothing. *)
Definition nothing_found (debounced : string) : Hooks :=
  {| debouncedQuery := debounced; results := [];
     fetching := false; error := None |}.

(** The panel is open and nothing is selected. *)
Definition opened (typed : string) : State :=
  {| query := typed; selectedIndex := -1; focused := true |}.

End Screens.

(* ================================================================= *)
(** ** Vocabulary of the properties *)

Module Vocabulary.
Import JS Github Orchestrator Widget.

(** An entry that carries a name, as every entry the gateway returns. *)
Definition named (r : SearchResult) : Prop := name r <> None.

(** The call has produced [items] and is not in flight. *)
Definition resolved_with (items : list SearchResult) (q : UseQueryResult)
  : Prop :=
  data q = Some items /\ isFetching q = false.

(** The call is in flight and has produced nothing yet. *)
Definition pending (q : UseQueryResult) : Prop :=
  data q = None /\ isFetching q = true.

(** Exactly one of the two calls has resolved, with [items]. *)
Definition one_resolved (items : list SearchResult)
           (usersQuery reposQuery : UseQueryResult) : Prop :=
  (resolved_with items usersQuery /\ pending reposQuery)
  \/ (pending usersQuery /\ resolved_with items reposQuery).

(** *** Keyboard *)

Definition is_navigation (key : Key) : Prop :=
  key = ArrowDown \/ key = ArrowUp.

(** The cursor is -1 or an index into the results. *)
Definition valid_cursor (h : Hooks) (s : State) : Prop :=
  -1 <= selectedIndex s <= results_length h - 1.

(** The commit side effect: a window is opened. *)
Definition commit_fires (effects : list Effect) : Prop :=
  exists target_url target, In (WindowOpen target_url target) effects.

Definition cursor_in_range (h : Hooks) (s : State) : Prop :=
  0 <= selectedIndex s < results_length h.

End Vocabulary.

(* ================================================================= *)
(** ** Facts about the insertion sort *)

Module SortFacts.
Import JS.

Section Moves.
Context {A : Type}.
Variable moves : A -> A -> bool.

Lemma insert_back_permutation (item : A) (prefix : list A) :
  Permutation (insert_back moves item prefix) (item :: prefix).
Proof.
  induction prefix as [|prev rest IH]; simpl.
  - apply Permutation_refl.
  - destruct (moves item prev).
    + apply perm_trans with (prev :: item :: rest).
      * now apply perm_skip.
      * apply perm_swap.
    + apply Permutation_refl.
Qed.

Lemma fold_insert_permutation (l prefix : list A) :
  Permutation
    (fold_left (fun p item => insert_back moves item p) l prefix)
    (l ++ prefix).
Proof.
  revert prefix.
  induction l as [|x l IH]; intros prefix; simpl.
  - apply Permutation_refl.
  - apply perm_trans with (l ++ insert_back moves x prefix)%list.
    + apply IH.
    + apply perm_trans with (l ++ x :: prefix)%list.
      * apply Permutation_app_head, insert_back_permutation.
      * apply Permutation_sym, Permutation_middle.
Qed.

Lemma insertion_sort_permutation (l : list A) :
  Permutation (insertion_sort moves l) l.
Proof.
  unfold insertion_sort.
  apply perm_trans
    with (fold_left (fun p item => insert_back moves item p) l []).
  - apply Permutation_sym, Permutation_rev.
  - rewrite <- (app_nil_r l) at 2.
    apply fold_insert_permutation.
Qed.
End Moves.

(** Two move tests that agree on the elements at hand sort alike. *)
Section Agreement.
Context {A : Type}.
Variables moves moves' : A -> A -> bool.

Lemma insert_back_agree (item : A) (prefix : list A) :
  (forall prev, In prev prefix -> moves item prev = moves' item prev) ->
  insert_back moves item prefix = insert_back moves' item prefix.
Proof.
  induction prefix as [|prev rest IH]; intros Hagree; simpl.
  - reflexivity.
  - rewrite <- (Hagree prev (or_introl eq_refl)).
    destruct (moves item prev); [|reflexivity].
    f_equal. apply IH. intros p Hp. apply Hagree. now right.
Qed.

Lemma fold_insert_agree (l prefix : list A) :
  (forall x y, In x (l ++ prefix) -> In y (l ++ prefix) ->
               moves x y = moves' x y) ->
  fold_left (fun p item => insert_back moves item p) l prefix
  = fold_left (fun p item => insert_back moves' item p) l prefix.
Proof.
  revert prefix.
  induction l as [|x l IH]; intros prefix Hagree; simpl.
  - reflexivity.
  - rewrite (insert_back_agree x prefix).
    + apply IH. intros a b Ha Hb.
      assert (Hin : forall c, In c (l ++ insert_back moves' x prefix) ->
                              In c ((x :: l) ++ prefix)).
      { intros c Hc. apply in_app_or in Hc. destruct Hc as [Hc|Hc].
        - simpl. right. apply in_or_app. now left.
        - apply (Permutation_in _ (insert_back_permutation _ _ _)) in Hc.
          destruct Hc as [Hc|Hc]; [now left|].
          simpl. right. apply in_or_app. now right. }
      apply Hagree; now apply Hin.
    + intros prev Hprev. apply Hagree.
      * now left.
      * simpl. right. apply in_or_app. now right.
Qed.

Lemma insertion_sort_agree (l : list A) :
  (forall x y, In x l -> In y l -> moves x y = moves' x y) ->
  insertion_sort moves l = insertion_sort moves' l.
Proof.
  intros Hagree. unfold insertion_sort. f_equal.
  apply fold_insert_agree. now rewrite app_nil_r.
Qed.
End Agreement.

Lemma stable_sort_permutation {A : Type} (cmp : Comparator A) (l : list A) :
  Permutation (stable_sort cmp l) l.
Proof. apply insertion_sort_permutation. Qed.

(** Comparators with the same "after" test on the elements of [l]. *)
Lemma stable_sort_agree {A : Type} (cmp cmp' : Comparator A) (l : list A) :
  (forall x y, In x l -> In y l -> (0 <? cmp x y) = (0 <? cmp' x y)) ->
  stable_sort cmp l = stable_sort cmp' l.
Proof.
  intros Hagree. apply insertion_sort_agree.
  intros x y Hx Hy. now apply Hagree.
Qed.

Lemma swapped_is_stable_sort {A : Type} (cmp : Comparator A) (l : list A) :
  consistent_on cmp l -> stable_sort_swapped cmp l = stable_sort cmp l.
Proof.
  intros [Hanti _]. apply insertion_sort_agree.
  intros x y Hx Hy. specialize (Hanti x y Hx Hy).
  destruct (Z.ltb_spec (cmp x y) 0), (Z.ltb_spec 0 (cmp y x));
    try reflexivity; lia.
Qed.

Lemma consistent_on_agree {A : Type} (cmp cmp' : Comparator A)
      (l : list A) :
  (forall x y, In x l -> In y l -> cmp x y = cmp' x y) ->
  consistent_on cmp' l -> consistent_on cmp l.
Proof.
  intros Heq [Hanti Htrans]. split.
  - intros a b Ha Hb. rewrite !Heq by assumption. now apply Hanti.
  - intros a b c Ha Hb Hc. rewrite !Heq by assumption. now apply Htrans.
Qed.

(** *** Sortedness *)

Lemma StronglySorted_snoc {A : Type} (R : A -> A -> Prop)
      (l : list A) (a : A) :
  StronglySorted R l -> Forall (fun x => R x a) l ->
  StronglySorted R (l ++ [a]).
Proof.
  induction l as [|x l IH]; intros Hsorted Hall; simpl.
  - constructor; constructor.
  - inversion Hsorted as [|? ? Hl Hx]; subst.
    inversion Hall as [|? ? Hxa Hla]; subst.
    constructor.
    + now apply IH.
    + apply Forall_app. split; [assumption|]. now constructor.
Qed.

Lemma StronglySorted_rev {A : Type} (R : A -> A -> Prop) (l : list A) :
  StronglySorted (fun a b => R b a) l -> StronglySorted R (rev l).
Proof.
  induction l as [|x l IH]; intros Hsorted; simpl.
  - constructor.
  - inversion Hsorted as [|? ? Hl Hx]; subst.
    apply StronglySorted_snoc.
    + now apply IH.
    + apply Forall_rev. exact Hx.
Qed.

Section Sorted.
Context {A : Type}.
Variable cmp : Comparator A.
Variable universe : list A.
Hypothesis consistent : consistent_on cmp universe.

Let after (item prev : A) : bool := 0 <? cmp prev item.
Let descending (a b : A) : Prop := cmp b a <= 0.

Lemma insert_back_descending (item : A) (prefix : list A) :
  In item universe -> incl prefix universe ->
  StronglySorted descending prefix ->
  StronglySorted descending (insert_back after item prefix).
Proof.
  destruct consistent as [Hanti Htrans].
  intros Hitem.
  induction prefix as [|prev rest IH]; intros Hincl Hsorted; simpl.
  - constructor; constructor.
  - assert (Hprev : In prev universe) by (apply Hincl; now left).
    assert (Hrest : incl rest universe)
      by (intros z Hz; apply Hincl; now right).
    inversion Hsorted as [|? ? Hs Hall]; subst.
    unfold after at 1.
    destruct (Z.ltb_spec 0 (cmp prev item)) as [Hgt|Hle].
    + constructor.
      * now apply IH.
      * apply (Permutation_Forall
                 (Permutation_sym (insert_back_permutation _ _ _))).
        constructor; [|exact Hall].
        unfold descending.
        specialize (Hanti prev item Hprev Hitem). lia.
    + constructor; [assumption|].
      constructor; [exact Hle|].
      rewrite Forall_forall in Hall |- *.
      intros z Hz. unfold descending in *.
      apply (Htrans z prev item); auto.
Qed.

Lemma fold_insert_descending (l prefix : list A) :
  incl l universe -> incl prefix universe ->
  StronglySorted descending prefix ->
  StronglySorted descending
    (fold_left (fun p item => insert_back after item p) l prefix).
Proof.
  revert prefix.
  induction l as [|x l IH]; intros prefix Hl Hprefix Hsorted; simpl.
  - assumption.
  - apply IH.
    + intros z Hz. apply Hl. now right.
    + intros z Hz.
      apply (Permutation_in _ (insert_back_permutation _ _ _)) in Hz.
      destruct Hz as [<-|Hz]; [apply Hl; now left|now apply Hprefix].
    + apply insert_back_descending; auto. apply Hl. now left.
Qed.

Lemma stable_sort_sorted :
  StronglySorted (fun a b => cmp a b <= 0) (stable_sort cmp universe).
Proof.
  unfold stable_sort, insertion_sort.
  apply StronglySorted_rev.
  apply (fold_insert_descending universe []).
  - apply incl_refl.
  - intros z [].
  - constructor.
Qed.
End Sorted.

End SortFacts.

(* ================================================================= *)
(** ** Concrete runtimes *)

Module Runtime.
Import JS.

(** The engine that runs the reference loop. *)
#[local] Instance forward_engine : ArraySort := {|
  sort := fun A cmp l => stable_sort cmp l;
  sort_permutation := fun A cmp l => SortFacts.stable_sort_permutation cmp l;
  sort_consistent := fun A cmp l _ => eq_refl
|}.

(** The engine that calls the comparator with the later element first. *)
#[local] Instance swapped_engine : ArraySort := {|
  sort := fun A cmp l => stable_sort_swapped cmp l;
  sort_permutation :=
    fun A cmp l =>
      SortFacts.insertion_sort_permutation
        (fun item prev => cmp item prev <? 0) l;
  sort_consistent := fun A cmp l => SortFacts.swapped_is_stable_sort cmp l
|}.

(** Comparison by code units, the collation of the root locale on
    plain ASCII lower-case names. *)
Definition compare_code_units (a b : string) : Z :=
  match String.compare a b with
  | Lt => -1
  | Eq => 0
  | Gt => 1
  end.

Lemma compare_code_units_antisym (a b : string) :
  Z.sgn (compare_code_units a b) = - Z.sgn (compare_code_units b a).
Proof.
  unfold compare_code_units.
  rewrite (String.compare_antisym a b).
  now destruct (String.compare b a).
Qed.

Lemma compare_code_units_le (a b : string) :
  compare_code_units a b <= 0 <-> String.compare a b <> Gt.
Proof.
  unfold compare_code_units.
  destruct (String.compare a b); split; intros H; try lia; congruence.
Qed.

Lemma compare_code_units_trans (a b c : string) :
  compare_code_units a b <= 0 -> compare_code_units b c <= 0 ->
  compare_code_units a c <= 0.
Proof.
  rewrite !compare_code_units_le.
  intros Hab Hbc Hac.
  (* a > c, so c < a *)
  assert (Hca : String_as_OT.lt c a).
  { apply String_as_OT.cmp_lt. unfold String_as_OT.cmp.
    rewrite String.compare_antisym, Hac. reflexivity. }
  destruct (String.compare a b) eqn:Eab; [| |congruence].
  - apply String.compare_eq_iff in Eab. subst b.
    rewrite String.compare_antisym in Hbc.
    apply Hbc.
    apply String_as_OT.cmp_lt in Hca. unfold String_as_OT.cmp in Hca.
    rewrite Hca. reflexivity.
  - assert (Hab' : String_as_OT.lt a b) by now apply String_as_OT.cmp_lt.
    assert (Hcb : String_as_OT.lt c b)
      by (eapply String_as_OT.lt_trans; eassumption).
    apply String_as_OT.cmp_lt in Hcb. unfold String_as_OT.cmp in Hcb.
    apply Hbc. rewrite String.compare_antisym, Hcb. reflexivity.
Qed.

#[local] Instance code_unit_collator : Collator := {|
  localeCompare := compare_code_units;
  localeCompare_antisym := compare_code_units_antisym;
  localeCompare_trans := compare_code_units_trans
|}.

End Runtime.

(* ================================================================= *)
(** ** The search gateway *)

Module GatewayProps.
Import JS Github.
Import Vocabulary.

Lemma short_query_guard (query : string) :
  query = EmptyString \/ length query < 3 ->
  falsy query || (length query <? 3) = true.
Proof.
  intros [->|Hshort].
  - reflexivity.
  - apply orb_true_iff. right. now apply Z.ltb_lt.
Qed.

(** C7. A query that is empty or shorter than 3 characters makes
    [searchUsers] and [searchRepositories] settle at once with the empty
    list: the run is fulfilled, not rejected, and its trace is empty, so
    no remote call was made (and nothing was logged). *)
Theorem short_query_returns_empty_without_remote_call
        (github : Octokit) (query : string) :
  query = EmptyString \/ length query < 3 ->
  searchUsers github query = ([], Fulfilled [])
  /\ searchRepositories github query = ([], Fulfilled [])
  /\ remote_calls (searchUsers github query) = []
  /\ remote_calls (searchRepositories github query) = [].
Proof.
  intros Hshort. apply short_query_guard in Hshort.
  unfold searchUsers, searchRepositories. rewrite Hshort.
  repeat split; reflexivity.
Qed.

Lemma short_query_returns_empty_without_remote_call_witness :
  ("ab" = EmptyString \/ length "ab" < 3)
  /\ searchUsers Samples.github_smith "ab" = ([], Fulfilled [])
  /\ searchRepositories Samples.github_smith "ab" = ([], Fulfilled [])
  /\ remote_calls (searchUsers Samples.github_smith "ab") = []
  /\ remote_calls (searchRepositories Samples.github_smith "ab") = [].
Proof.
  assert (H : "ab" = EmptyString \/ length "ab" < 3)
    by (right; vm_compute; reflexivity).
  split.
  - exact H.
  - exact (short_query_returns_empty_without_remote_call
             Samples.github_smith "ab" H).
Defined.

(** From 3 characters on, each operation performs exactly one remote
    read, with 50 items a page and its own descending sort key. *)
Lemma long_query_calls_once (github : Octokit) (query : string) :
  3 <= length query ->
  remote_calls (searchUsers github query)
  = [RemoteCall SearchUsers
       {| q := query; per_page := 50;
          sort_key := "followers"; order := "desc" |}]
  /\ remote_calls (searchRepositories github query)
     = [RemoteCall SearchRepos
          {| q := query; per_page := 50;
             sort_key := "stars"; order := "desc" |}].
Proof.
  intros Hlong.
  assert (Hguard : falsy query || (length query <? 3) = false).
  { apply orb_false_iff. split.
    - destruct query; [cbv in Hlong; now contradiction Hlong|reflexivity].
    - now apply Z.ltb_ge. }
  unfold searchUsers, searchRepositories. rewrite Hguard.
  unfold await_users, await_repos, try_catch, bind, remote_calls; simpl.
  split.
  - destruct (rest_search_users github _); reflexivity.
  - destruct (rest_search_repos github _); reflexivity.
Qed.

Lemma map_users_named (items : list GitHubUser) :
  Forall named (map mapGitHubUserToResult items).
Proof.
  apply Forall_forall. intros r Hr. apply in_map_iff in Hr.
  destruct Hr as (u & <- & _). discriminate.
Qed.

Lemma map_repos_named (items : list GitHubRepo) :
  Forall named (map mapGitHubRepoToResult items).
Proof.
  apply Forall_forall. intros r Hr. apply in_map_iff in Hr.
  destruct Hr as (u & <- & _). discriminate.
Qed.

Lemma searchUsers_named (github : Octokit) (query : string)
      (accounts : list SearchResult) :
  snd (searchUsers github query) = Fulfilled accounts ->
  Forall named accounts.
Proof.
  unfold searchUsers.
  destruct (falsy query || (length query <? 3)); simpl.
  - intros [= <-]. constructor.
  - unfold await_users, try_catch, bind; simpl.
    destruct (rest_search_users github _); simpl.
    + intros [= <-]. apply map_users_named.
    + discriminate.
Qed.

Lemma searchRepositories_named (github : Octokit) (query : string)
      (repositories : list SearchResult) :
  snd (searchRepositories github query) = Fulfilled repositories ->
  Forall named repositories.
Proof.
  unfold searchRepositories.
  destruct (falsy query || (length query <? 3)); simpl.
  - intros [= <-]. constructor.
  - unfold await_repos, try_catch, bind; simpl.
    destruct (rest_search_repos github _); simpl.
    + intros [= <-]. apply map_repos_named.
    + discriminate.
Qed.

End GatewayProps.

(* ================================================================= *)
(** ** The query orchestrator *)

Module OrchestratorProps.
Import JS Github Orchestrator.
Import Samples Vocabulary GatewayProps.

Section Merge.
Context {engine : ArraySort} {collator : Collator}.

(** On an entry that has a name, the comparator of the code is the
    comparison of names. *)
Lemma compareByName_named (a b : SearchResult) :
  named a -> compareByName a b = compare_names a b.
Proof.
  unfold named, compareByName, compare_names, name_or_empty.
  destruct (name a); [reflexivity|congruence].
Qed.

(** On an entry without a name it answers 0, whatever the other is. *)
Lemma compareByName_nameless (a b : SearchResult) :
  name a = None -> compareByName a b = 0.
Proof. unfold compareByName. now intros ->. Qed.

Lemma compare_names_consistent (l : list SearchResult) :
  consistent_on compare_names l.
Proof.
  split.
  - intros a b _ _. apply localeCompare_antisym.
  - intros a b c _ _ _. apply localeCompare_trans.
Qed.

Lemma compareByName_consistent (l : list SearchResult) :
  Forall named l -> consistent_on compareByName l.
Proof.
  intros Hnamed. rewrite Forall_forall in Hnamed.
  apply (SortFacts.consistent_on_agree _ compare_names).
  - intros x y Hx _. apply compareByName_named. now apply Hnamed.
  - apply compare_names_consistent.
Qed.

(** With every name present, the merge of the code is the merge the
    specification describes. *)
Lemma merge_named (users repositories : list SearchResult) :
  Forall named users -> Forall named repositories ->
  merge users repositories = spec_merge users repositories.
Proof.
  intros Hu Hr.
  assert (Hall : Forall named (users ++ repositories))
    by (apply Forall_app; now split).
  unfold merge, spec_merge, slice0. f_equal.
  rewrite sort_consistent by now apply compareByName_consistent.
  apply SortFacts.stable_sort_agree.
  intros x y Hx _. rewrite compareByName_named; [reflexivity|].
  rewrite Forall_forall in Hall. now apply Hall.
Qed.

Lemma spec_merge_sorted (accounts repositories : list SearchResult) :
  exists sorted,
    Permutation sorted (accounts ++ repositories)
    /\ StronglySorted name_le sorted
    /\ spec_merge accounts repositories = firstn 50 sorted.
Proof.
  exists (stable_sort compare_names (accounts ++ repositories)).
  split; [apply SortFacts.stable_sort_permutation|].
  split; [|reflexivity].
  apply (SortFacts.stable_sort_sorted compare_names).
  apply compare_names_consistent.
Qed.

End Merge.

(** C1. Whatever the two gateway calls returned, the merged list of
    [useAutocomplete] is the concatenation of the account results and
    the repository results, sorted ascending by name under
    [localeCompare] (an absent name standing for the empty string) and
    cut to its first 50 entries. It is spelled out twice: as the
    specification's merge, and as the first 50 entries of a permutation
    of the concatenation that is sorted by name. This holds for every
    conforming [Array.prototype.sort] and every [localeCompare]. *)
Theorem merged_results_sorted_by_name
        (engine : ArraySort) (collator : Collator)
        (github : Octokit) (query : string)
        (accounts repositories : list SearchResult)
        (usersQuery reposQuery : UseQueryResult) :
  snd (searchUsers github query) = Fulfilled accounts ->
  snd (searchRepositories github query) = Fulfilled repositories ->
  data usersQuery = Some accounts ->
  data reposQuery = Some repositories ->
  results (useAutocomplete usersQuery reposQuery)
  = spec_merge accounts repositories
  /\ exists sorted,
      Permutation sorted (accounts ++ repositories)
      /\ StronglySorted name_le sorted
      /\ results (useAutocomplete usersQuery reposQuery) = firstn 50 sorted.
Proof.
  intros Hu Hr Hdu Hdr.
  apply searchUsers_named in Hu. apply searchRepositories_named in Hr.
  assert (Heq : results (useAutocomplete usersQuery reposQuery)
                = spec_merge accounts repositories).
  { unfold useAutocomplete; simpl. rewrite Hdu, Hdr; simpl.
    now apply merge_named. }
  split; [exact Heq|].
  rewrite Heq. apply spec_merge_sorted.
Qed.

(** The spec's scenario: accounts [johnsmith] and repositories [cool-lib]
    for the query smith merge to [cool-lib; johnsmith]. *)
Lemma merged_results_sorted_by_name_witness :
  let usersQuery := {| data := Some [Samples.johnsmith]; isLoading := false;
                       isFetching := false; error := None |} in
  let reposQuery := {| data := Some [Samples.cool_lib]; isLoading := false;
                       isFetching := false; error := None |} in
  snd (searchUsers Samples.github_smith "smith")
  = Fulfilled [Samples.johnsmith]
  /\ snd (searchRepositories Samples.github_smith "smith")
     = Fulfilled [Samples.cool_lib]
  /\ results (useAutocomplete (engine := Runtime.forward_engine)
                              (collator := Runtime.code_unit_collator)
                              usersQuery reposQuery)
     = [Samples.cool_lib; Samples.johnsmith].
Proof.
  intros usersQuery reposQuery.
  split; [reflexivity|]. split; [reflexivity|].
  destruct (merged_results_sorted_by_name
              Runtime.forward_engine Runtime.code_unit_collator
              Samples.github_smith "smith"
              [Samples.johnsmith] [Samples.cool_lib]
              usersQuery reposQuery
              eq_refl eq_refl eq_refl eq_refl) as [Heq _].
  rewrite Heq. reflexivity.
Defined.

(** Where a name is absent the comparator is no longer consistent (it
    answers 0 one way round and a positive number the other), so the
    place of such an entry is the engine's choice: the loop that asks
    [cmp prev item > 0] puts it where the empty string would go, the
    loop that asks [cmp item prev < 0] leaves it where it was. *)
Lemma nameless_entry_order_is_engine_defined :
  merge (engine := Runtime.forward_engine)
        (collator := Runtime.code_unit_collator)
        [Samples.johnsmith] [Samples.nameless]
  = [Samples.nameless; Samples.johnsmith]
  /\ merge (engine := Runtime.swapped_engine)
           (collator := Runtime.code_unit_collator)
           [Samples.johnsmith] [Samples.nameless]
     = [Samples.johnsmith; Samples.nameless]
  /\ spec_merge (collator := Runtime.code_unit_collator)
                [Samples.johnsmith] [Samples.nameless]
     = [Samples.nameless; Samples.johnsmith].
Proof. repeat split; reflexivity. Qed.

(** *** One call resolved, the other pending *)

(** C3, refuted as stated. With the account search resolved to
    [johnsmith] and the repository search still pending, the results
    list is [johnsmith], not the empty list. *)
Lemma partial_results_are_exposed :
  one_resolved [Samples.johnsmith] users_resolved repos_pending
  /\ results (useAutocomplete (engine := Runtime.forward_engine)
                              (collator := Runtime.code_unit_collator)
                              users_resolved repos_pending)
     = [Samples.johnsmith]
  /\ results (useAutocomplete (engine := Runtime.forward_engine)
                              (collator := Runtime.code_unit_collator)
                              users_resolved repos_pending)
     <> [].
Proof.
  split.
  - left. repeat split; reflexivity.
  - split; [reflexivity|discriminate].
Qed.

Lemma firstn_50_nil {A : Type} (l : list A) : firstn 50 l = [] <-> l = [].
Proof.
  split; [|now intros ->].
  destruct l; [reflexivity|discriminate].
Qed.

(** C3, amended. While exactly one of the two gateway calls has
    resolved and the other is pending, the results list is the
    resolved call's entries alone, sorted ascending by name and cut to
    50: the pending call counts as the empty list. So it is the
    specification's merge of those entries with nothing, it is in name
    order, it is the first 50 of a rearrangement of those entries, and
    it is empty only if the resolved call returned nothing. [fetching]
    is true throughout. *)
Theorem partial_results_are_the_resolved_call
        (engine : ArraySort) (collator : Collator)
        (github : Octokit) (query : string)
        (items : list SearchResult)
        (usersQuery reposQuery : UseQueryResult) :
  (resolved_with items usersQuery /\ pending reposQuery
   /\ snd (searchUsers github query) = Fulfilled items)
  \/ (pending usersQuery /\ resolved_with items reposQuery
      /\ snd (searchRepositories github query) = Fulfilled items) ->
  results (useAutocomplete usersQuery reposQuery) = spec_merge items []
  /\ StronglySorted name_le (results (useAutocomplete usersQuery reposQuery))
  /\ (exists sorted,
         Permutation sorted items
         /\ StronglySorted name_le sorted
         /\ results (useAutocomplete usersQuery reposQuery)
            = firstn 50 sorted)
  /\ (results (useAutocomplete usersQuery reposQuery) = [] <-> items = [])
  /\ fetching (useAutocomplete usersQuery reposQuery) = true.
Proof.
  intros Hone.
  set (sorted := stable_sort compare_names items).
  assert (Hspec : spec_merge items [] = firstn 50 sorted)
    by (unfold spec_merge, sorted; now rewrite app_nil_r).
  assert (Hperm : Permutation sorted items)
    by apply SortFacts.stable_sort_permutation.
  assert (Hsorted : StronglySorted name_le sorted).
  { apply (SortFacts.stable_sort_sorted compare_names).
    apply compare_names_consistent. }
  assert (Heq : results (useAutocomplete usersQuery reposQuery)
                = spec_merge items []
                /\ fetching (useAutocomplete usersQuery reposQuery) = true).
  { destruct Hone as [([Hd Hf] & [Hd' Hf'] & Hgw)|([Hd Hf] & [Hd' Hf'] & Hgw)].
    - apply searchUsers_named in Hgw.
      unfold useAutocomplete; simpl. rewrite Hd, Hd', Hf, Hf'; simpl.
      split; [|reflexivity].
      apply merge_named; [assumption|constructor].
    - apply searchRepositories_named in Hgw.
      unfold useAutocomplete; simpl. rewrite Hd, Hd', Hf, Hf'; simpl.
      split; [|reflexivity].
      rewrite merge_named; [|constructor|assumption].
      unfold spec_merge. simpl. now rewrite app_nil_r. }
  destruct Heq as [Heq Hfetching].
  rewrite Heq, Hspec.
  split; [reflexivity|]. split; [|split; [|split]].
  - rewrite <- (firstn_skipn 50 sorted) in Hsorted.
    clear - Hsorted.
    induction (firstn 50 sorted) as [|x l IH].
    + constructor.
    + simpl in Hsorted. inversion Hsorted as [|? ? Hrest Hx]; subst.
      constructor; [now apply IH|].
      apply Forall_app in Hx. tauto.
  - exists sorted. repeat split; assumption.
  - rewrite firstn_50_nil. split.
    + intros Hnil. apply Permutation_nil. rewrite <- Hnil.
      now apply Permutation_sym.
    + intros ->. now apply Permutation_nil.
  - exact Hfetching.
Qed.

(** The account search answered johnsmith then janesmith and the
    repository search is still pending: the list shown is janesmith,
    johnsmith. *)
Lemma partial_results_are_the_resolved_call_witness :
  ((resolved_with [johnsmith; janesmith] two_users_resolved
    /\ pending repos_pending
    /\ snd (searchUsers github_two_smiths "smith")
       = Fulfilled [johnsmith; janesmith])
   \/ (pending two_users_resolved
       /\ resolved_with [johnsmith; janesmith] repos_pending
       /\ snd (searchRepositories github_two_smiths "smith")
          = Fulfilled [johnsmith; janesmith]))
  /\ results (useAutocomplete (engine := Runtime.swapped_engine)
                              (collator := Runtime.code_unit_collator)
                              two_users_resolved repos_pending)
     = [janesmith; johnsmith]
  /\ fetching (useAutocomplete (engine := Runtime.swapped_engine)
                               (collator := Runtime.code_unit_collator)
                               two_users_resolved repos_pending) = true.
Proof.
  assert (H : (resolved_with [johnsmith; janesmith] two_users_resolved
               /\ pending repos_pending
               /\ snd (searchUsers github_two_smiths "smith")
                  = Fulfilled [johnsmith; janesmith])
              \/ (pending two_users_resolved
                  /\ resolved_with [johnsmith; janesmith] repos_pending
                  /\ snd (searchRepositories github_two_smiths "smith")
                     = Fulfilled [johnsmith; janesmith]))
    by (left; repeat split; reflexivity).
  split; [exact H|].
  destruct (partial_results_are_the_resolved_call
              Runtime.swapped_engine Runtime.code_unit_collator
              github_two_smiths "smith"
              [johnsmith; janesmith] two_users_resolved repos_pending H)
    as (Hres & _ & _ & _ & Hfetching).
  split; [|exact Hfetching].
  rewrite Hres. reflexivity.
Defined.

End OrchestratorProps.

(* ================================================================= *)
(** ** The interaction state machine *)

Module WidgetProps.
Import JS Github Widget.
Import Screens Vocabulary.

Lemma results_length_nonneg (h : Hooks) : 0 <= results_length h.
Proof. unfold results_length. lia. Qed.

Lemma results_length_0 (h : Hooks) :
  (results_length h =? 0) = true <-> results h = [].
Proof.
  unfold results_length. rewrite Z.eqb_eq.
  destruct (results h); simpl; split; intros H;
    try reflexivity; try discriminate; lia.
Qed.

Lemma accepts_iff (h : Hooks) :
  accepts h = true <-> results h <> [] /\ fetching h = false.
Proof.
  unfold accepts. rewrite negb_true_iff, orb_false_iff.
  rewrite <- results_length_0.
  destruct (results_length h =? 0); intuition congruence.
Qed.

Lemma handleKeyDown_guard (h : Hooks) (s : State) (key : Key) :
  handleKeyDown h s key
  = if accepts h
    then match key with
         | ArrowDown => (navigateDown h s, [PreventDefault])
         | ArrowUp => (navigateUp s, [PreventDefault])
         | Enter =>
             (s, PreventDefault ::
                   (if (0 <=? selectedIndex s)
                       && (selectedIndex s <? results_length h)
                    then match at_index (results h) (selectedIndex s) with
                         | Some result => handleSelectResult result
                         | None => []
                         end
                    else []))
         | Escape => (setFocused false s, [PreventDefault; InputBlur])
         | OtherKey _ => (s, [])
         end
    else (s, []).
Proof.
  unfold handleKeyDown, accepts.
  now destruct ((results_length h =? 0) || fetching h).
Qed.

Lemma scrollEffect_same (h : Hooks) (s : State) : scrollEffect h s s = [].
Proof. unfold scrollEffect. now rewrite Z.eqb_refl. Qed.

(** C5. When the result list is empty or a fetch is in flight, a key
    press of any kind (arrow down, arrow up, Enter, Escape or another
    key) returns the state it found and fires no effect: not even
    [preventDefault], and no scroll follows since the cursor did not
    move. *)
Theorem keyboard_ignored_without_results_or_while_fetching
        (h : Hooks) (s : State) (key : Key) :
  results h = [] \/ fetching h = true ->
  handleKeyDown h s key = (s, [])
  /\ dispatch h s (KeyDown key) = (s, []).
Proof.
  intros Hignored.
  assert (Hkey : handleKeyDown h s key = (s, [])).
  { unfold handleKeyDown.
    destruct Hignored as [Hempty|Hfetching].
    - apply results_length_0 in Hempty. now rewrite Hempty.
    - rewrite Hfetching, orb_true_r. reflexivity. }
  split; [exact Hkey|].
  unfold dispatch, handle. rewrite Hkey, scrollEffect_same. reflexivity.
Qed.

Lemma keyboard_ignored_without_results_or_while_fetching_witness :
  (results two_results_refetching = []
   \/ fetching two_results_refetching = true)
  /\ handleKeyDown two_results_refetching (opened "smith") Escape
     = (opened "smith", [])
  /\ dispatch two_results_refetching (opened "smith") (KeyDown Escape)
     = (opened "smith", []).
Proof.
  assert (H : results two_results_refetching = []
              \/ fetching two_results_refetching = true)
    by (right; reflexivity).
  split.
  - exact H.
  - exact (keyboard_ignored_without_results_or_while_fetching
             two_results_refetching (opened "smith") Escape H).
Defined.

(** *** Dismissal *)

(** C2, refuted as stated. With a fetch in flight, Escape leaves the
    panel open: [focused] is still true, and so it is when the result
    list is empty. *)
Lemma escape_does_not_dismiss_while_fetching :
  focused (fst (handleKeyDown two_results_refetching
                              (opened "smith") Escape)) = true
  /\ ~ Idle (fst (dispatch two_results_refetching
                           (opened "smith") (KeyDown Escape)))
  /\ ~ Idle (fst (dispatch (nothing_found "smith")
                           (opened "smith") (KeyDown Escape))).
Proof. repeat split; unfold Idle; simpl; discriminate. Qed.

(** C2, amended. A mousedown outside the container always sets
    [focused] to false and hides the panel, whatever the fetch state and
    the result list. Escape does so (and blurs the input) only when it
    is accepted, that is with a non-empty result list and no fetch in
    flight; otherwise it is ignored and [focused] keeps its value. *)
Theorem dismissal (h : Hooks) (s : State) :
  Idle (handleClickOutside false s)
  /\ dispatch h s (DocumentMouseDown false) = (setFocused false s, [])
  /\ panel (render h (setFocused false s)) = None
  /\ dispatch h s (KeyDown Escape)
     = (if accepts h
        then (setFocused false s, [PreventDefault; InputBlur])
        else (s, [])).
Proof.
  split; [reflexivity|].
  split.
  - unfold dispatch, handle, handleClickOutside; simpl.
    unfold scrollEffect; simpl. now rewrite Z.eqb_refl.
  - split; [reflexivity|].
    unfold dispatch, handle. rewrite handleKeyDown_guard.
    destruct (accepts h).
    + unfold scrollEffect; simpl. now rewrite Z.eqb_refl.
    + now rewrite scrollEffect_same.
Qed.

(** *** Keyboard navigation *)

Lemma accepts_length (h : Hooks) : accepts h = true -> 1 <= results_length h.
Proof.
  intros Hacc. apply accepts_iff in Hacc. destruct Hacc as [Hne _].
  unfold results_length. destruct (results h); [congruence|simpl; lia].
Qed.

Lemma selectedIndex_down (h : Hooks) (s : State) :
  accepts h = true ->
  selectedIndex (fst (handleKeyDown h s ArrowDown))
  = if selectedIndex s <? results_length h - 1
    then selectedIndex s + 1 else selectedIndex s.
Proof. intros Hacc. rewrite handleKeyDown_guard, Hacc. reflexivity. Qed.

Lemma selectedIndex_up (h : Hooks) (s : State) :
  accepts h = true ->
  selectedIndex (fst (handleKeyDown h s ArrowUp))
  = if 0 <? selectedIndex s then selectedIndex s - 1 else 0.
Proof. intros Hacc. rewrite handleKeyDown_guard, Hacc. reflexivity. Qed.

Lemma navigation_step (h : Hooks) (s : State) (key : Key) :
  accepts h = true -> is_navigation key -> valid_cursor h s ->
  0 <= selectedIndex (fst (handleKeyDown h s key)) <= results_length h - 1.
Proof.
  intros Hacc Hnav Hvalid. unfold valid_cursor in Hvalid.
  pose proof (accepts_length h Hacc) as Hlen.
  destruct Hnav as [-> | ->].
  - rewrite selectedIndex_down by assumption.
    destruct (Z.ltb_spec (selectedIndex s) (results_length h - 1)); lia.
  - rewrite selectedIndex_up by assumption.
    destruct (Z.ltb_spec 0 (selectedIndex s)); lia.
Qed.

Lemma navigation_run (h : Hooks) (keys : list Key) :
  accepts h = true -> Forall is_navigation keys ->
  forall s, valid_cursor h s ->
    valid_cursor h (press h s keys)
    /\ (keys <> [] -> 0 <= selectedIndex (press h s keys)).
Proof.
  intros Hacc Hnav.
  induction Hnav as [|key rest Hkey Hrest IH]; intros s Hvalid; simpl.
  - split; [assumption|congruence].
  - pose proof (navigation_step h s key Hacc Hkey Hvalid) as Hstep.
    destruct (IH (fst (handleKeyDown h s key))) as [Hafter Hpos].
    { unfold valid_cursor. lia. }
    split; [assumption|]. intros _.
    destruct rest as [|key' rest'].
    + simpl. lia.
    + apply Hpos. discriminate.
Qed.

Lemma repeated_down (h : Hooks) (k : nat) :
  accepts h = true ->
  forall s, valid_cursor h s ->
    selectedIndex (press h s (repeat ArrowDown k))
    = Z.min (selectedIndex s + Z.of_nat k) (results_length h - 1).
Proof.
  intros Hacc.
  induction k as [|k IH]; intros s Hvalid.
  - simpl. unfold valid_cursor in Hvalid. lia.
  - change (repeat ArrowDown (S k)) with (ArrowDown :: repeat ArrowDown k).
    cbn [press].
    pose proof (navigation_step h s ArrowDown Hacc (or_introl eq_refl) Hvalid)
      as Hstep.
    rewrite IH by (unfold valid_cursor; lia).
    rewrite selectedIndex_down by assumption.
    unfold valid_cursor in Hvalid.
    destruct (Z.ltb_spec (selectedIndex s) (results_length h - 1)); lia.
Qed.

Lemma repeated_up (h : Hooks) (k : nat) :
  accepts h = true ->
  forall s, valid_cursor h s ->
    selectedIndex (press h s (repeat ArrowUp (S k)))
    = Z.max (selectedIndex s - Z.of_nat (S k)) 0.
Proof.
  intros Hacc.
  induction k as [|k IH]; intros s Hvalid;
    change (repeat ArrowUp (S ?n)) with (ArrowUp :: repeat ArrowUp n);
    cbn [press];
    pose proof (navigation_step h s ArrowUp Hacc (or_intror eq_refl) Hvalid)
      as Hstep;
    unfold valid_cursor in Hvalid.
  - simpl. rewrite selectedIndex_up by assumption.
    destruct (Z.ltb_spec 0 (selectedIndex s)); lia.
  - rewrite IH by (unfold valid_cursor; lia).
    rewrite selectedIndex_up by assumption.
    destruct (Z.ltb_spec 0 (selectedIndex s)); lia.
Qed.

(** C4. With a non-empty result list of length n and no fetch in
    flight, start from any cursor the component can hold (-1 or an index
    into the list) and press arrow keys in any order and number: the
    cursor never exceeds n - 1 and, once a key was pressed, is never
    below 0. Pressing down k times gives min (cursor + k, n - 1), so it
    stops at the last index and does not wrap; pressing up k >= 1 times
    gives max (cursor - k, 0), so up at the first item stays at 0. *)
Theorem cursor_stays_within_results
        (h : Hooks) (s : State) (keys : list Key) :
  results h <> [] -> fetching h = false ->
  valid_cursor h s ->
  Forall is_navigation keys ->
  selectedIndex (press h s keys) <= results_length h - 1
  /\ (keys <> [] -> 0 <= selectedIndex (press h s keys))
  /\ (forall k : nat,
        selectedIndex (press h s (repeat ArrowDown k))
        = Z.min (selectedIndex s + Z.of_nat k) (results_length h - 1))
  /\ (forall k : nat,
        selectedIndex (press h s (repeat ArrowUp (S k)))
        = Z.max (selectedIndex s - Z.of_nat (S k)) 0).
Proof.
  intros Hne Hfetching Hvalid Hnav.
  assert (Hacc : accepts h = true) by (apply accepts_iff; now split).
  destruct (navigation_run h keys Hacc Hnav s Hvalid) as [Hafter Hpos].
  split; [apply Hafter|]. split; [exact Hpos|]. split.
  - intros k. now apply repeated_down.
  - intros k. now apply repeated_up.
Qed.

(** The spec's scenario: three down-moves over a 2-item list end on
    index 1. *)
Lemma cursor_stays_within_results_witness :
  valid_cursor two_results (opened "smith")
  /\ selectedIndex (press two_results (opened "smith")
                          [ArrowDown; ArrowDown; ArrowDown]) = 1
  /\ selectedIndex (press two_results (opened "smith")
                          [ArrowDown; ArrowDown; ArrowDown])
     <= results_length two_results - 1.
Proof.
  assert (Hvalid : valid_cursor two_results (opened "smith"))
    by (unfold valid_cursor; vm_compute; split; discriminate).
  split; [exact Hvalid|]. split; [reflexivity|].
  apply (cursor_stays_within_results
           two_results (opened "smith") [ArrowDown; ArrowDown; ArrowDown]).
  - discriminate.
  - reflexivity.
  - exact Hvalid.
  - repeat constructor.
Defined.

(** C10. From no selection (-1), with results and no fetch in flight,
    one arrow-down selects index 0, and so does one arrow-up. *)
Theorem first_arrow_selects_first_item (h : Hooks) (s : State) :
  results h <> [] -> fetching h = false -> selectedIndex s = -1 ->
  selectedIndex (fst (handleKeyDown h s ArrowDown)) = 0
  /\ selectedIndex (fst (handleKeyDown h s ArrowUp)) = 0.
Proof.
  intros Hne Hfetching Hnone.
  assert (Hacc : accepts h = true) by (apply accepts_iff; now split).
  pose proof (accepts_length h Hacc) as Hlen.
  rewrite selectedIndex_down, selectedIndex_up by assumption.
  rewrite Hnone. split.
  - destruct (Z.ltb_spec (-1) (results_length h - 1)); lia.
  - reflexivity.
Qed.

Lemma first_arrow_selects_first_item_witness :
  selectedIndex (fst (handleKeyDown two_results (opened "smith") ArrowDown))
  = 0
  /\ selectedIndex (fst (handleKeyDown two_results (opened "smith") ArrowUp))
     = 0.
Proof.
  apply (first_arrow_selects_first_item two_results (opened "smith")).
  - discriminate.
  - reflexivity.
  - reflexivity.
Defined.

(** *** Commit *)

Lemma at_index_in_range {A : Type} (l : list A) (i : Z) :
  0 <= i < Z.of_nat (List.length l) -> exists x, at_index l i = Some x.
Proof.
  intros Hrange. unfold at_index.
  destruct (Z.ltb_spec i 0) as [Hneg|_]; [lia|].
  destruct (nth_error l (Z.to_nat i)) as [x|] eqn:Hnth.
  - now exists x.
  - apply nth_error_None in Hnth. lia.
Qed.

Lemma enter_in_range (h : Hooks) (s : State) :
  accepts h = true -> cursor_in_range h s ->
  exists result,
    at_index (results h) (selectedIndex s) = Some result
    /\ handleKeyDown h s Enter
       = (s, [PreventDefault; WindowOpen (url result) "_blank"; InputBlur]).
Proof.
  intros Hacc Hrange. unfold cursor_in_range in Hrange.
  destruct (at_index_in_range (results h) (selectedIndex s) Hrange)
    as [result Hresult].
  exists result. split; [exact Hresult|].
  rewrite handleKeyDown_guard, Hacc, Hresult.
  replace (0 <=? selectedIndex s) with true
    by (symmetry; apply Z.leb_le; lia).
  replace (selectedIndex s <? results_length h) with true
    by (symmetry; apply Z.ltb_lt; lia).
  reflexivity.
Qed.

Lemma enter_out_of_range (h : Hooks) (s : State) :
  accepts h = true -> ~ cursor_in_range h s ->
  handleKeyDown h s Enter = (s, [PreventDefault]).
Proof.
  intros Hacc Hout. unfold cursor_in_range in Hout.
  rewrite handleKeyDown_guard, Hacc.
  destruct (Z.leb_spec 0 (selectedIndex s));
    destruct (Z.ltb_spec (selectedIndex s) (results_length h));
    simpl; try reflexivity; lia.
Qed.

Lemma cursor_in_range_dec (h : Hooks) (s : State) :
  cursor_in_range h s \/ ~ cursor_in_range h s.
Proof. unfold cursor_in_range. lia. Qed.

(** C8. When Enter is accepted (results present, no fetch in flight),
    a window is opened if and only if 0 <= selectedIndex < results.length.
    When it is, the effects are [preventDefault], then opening the url of
    the result at selectedIndex in a new context, then blurring the
    input; when it is not, only [preventDefault] happens. The state is
    the same either way. *)
Theorem commit_fires_iff_cursor_in_range (h : Hooks) (s : State) :
  results h <> [] -> fetching h = false ->
  (commit_fires (snd (handleKeyDown h s Enter)) <-> cursor_in_range h s)
  /\ (cursor_in_range h s ->
      exists result,
        at_index (results h) (selectedIndex s) = Some result
        /\ handleKeyDown h s Enter
           = (s, [PreventDefault;
                  WindowOpen (url result) "_blank";
                  InputBlur]))
  /\ (~ cursor_in_range h s ->
      handleKeyDown h s Enter = (s, [PreventDefault])).
Proof.
  intros Hne Hfetching.
  assert (Hacc : accepts h = true) by (apply accepts_iff; now split).
  split; [|split].
  - split.
    + intros (u & t & Hin).
      destruct (cursor_in_range_dec h s) as [Hin_range|Hout];
        [assumption|].
      rewrite (enter_out_of_range h s Hacc Hout) in Hin.
      simpl in Hin. destruct Hin as [Hin|[]]. discriminate.
    + intros Hrange.
      destruct (enter_in_range h s Hacc Hrange) as (result & _ & ->).
      exists (url result), "_blank". simpl. right. now left.
  - now apply enter_in_range.
  - now apply enter_out_of_range.
Qed.

(** The Enter test: arrow down to janesmith, then Enter opens her page. *)
Lemma commit_fires_iff_cursor_in_range_witness :
  let s := fst (handleKeyDown two_results (opened "smith") ArrowDown) in
  cursor_in_range two_results s
  /\ handleKeyDown two_results s Enter
     = (s, [PreventDefault;
            WindowOpen "https://github.com/janesmith" "_blank";
            InputBlur])
  /\ ~ commit_fires (snd (handleKeyDown two_results (opened "smith") Enter)).
Proof.
  intros s.
  assert (Hne : results two_results <> []) by discriminate.
  assert (Hrange : cursor_in_range two_results s)
    by (unfold cursor_in_range; vm_compute; split;
        [discriminate|reflexivity]).
  split; [exact Hrange|]. split.
  - destruct (commit_fires_iff_cursor_in_range two_results s Hne eq_refl)
      as (_ & Hin & _).
    destruct (Hin Hrange) as (result & Hat & Heq).
    rewrite Heq. injection Hat as <-. reflexivity.
  - intros Hfires.
    apply (commit_fires_iff_cursor_in_range
             two_results (opened "smith") Hne eq_refl) in Hfires.
    unfold cursor_in_range in Hfires. simpl in Hfires. lia.
Defined.

(** *** Rows on screen *)

Lemma nth_error_rows_from (l : list SearchResult) (k cursor : Z) (i : nat)
      (row : Row) :
  nth_error (rows_from k cursor l) i = Some row ->
  nth_error l i = Some (row_result row).
Proof.
  revert k i.
  induction l as [|r l IH]; intros k i; simpl.
  - destruct i; discriminate.
  - destruct i as [|i]; simpl.
    + intros [= <-]. reflexivity.
    + apply IH.
Qed.

Lemma visible_rows_cases (h : Hooks) (s : State) :
  visible_rows h s = []
  \/ (focused s = true
      /\ visible_rows h s = rows_from 0 (selectedIndex s) (results h)).
Proof.
  unfold visible_rows, render, SearchResults; simpl.
  destruct (focused s); [|now left].
  destruct (fetching h && (results_length h =? 0)); [now left|].
  right. split; [reflexivity|].
  rewrite !flat_map_app.
  assert (Herr : flat_map
                   (fun item => match item with
                                | ResultList _ rows => rows
                                | _ => []
                                end)
                   match error h with
                   | Some e => [ErrorMessage (error_text e)]
                   | None => []
                   end = []) by now destruct (error h).
  rewrite Herr.
  destruct (negb (is_some (error h)) && (3 <? length (debouncedQuery h))
            && (results_length h =? 0));
    destruct (length (debouncedQuery h) <? 3);
    destruct (0 <? results_length h) eqn:Hlen; simpl;
    rewrite ?app_nil_r; try reflexivity;
    (apply Z.ltb_ge in Hlen; unfold results_length in Hlen;
     destruct (results h); [reflexivity|simpl in Hlen; lia]).
Qed.

Lemma visible_row_is_result (h : Hooks) (s : State) (i : nat) (row : Row) :
  nth_error (visible_rows h s) i = Some row ->
  focused s = true /\ nth_error (results h) i = Some (row_result row).
Proof.
  destruct (visible_rows_cases h s) as [->|[Hfocused ->]].
  - destruct i; discriminate.
  - intros Hrow. split; [assumption|].
    now apply nth_error_rows_from in Hrow.
Qed.

(** The cursor stays -1 or an index into the results under every event
    of the component, as long as the results are the same. *)
Lemma valid_cursor_initial (h : Hooks) : valid_cursor h initial.
Proof.
  unfold valid_cursor. pose proof (results_length_nonneg h). simpl. lia.
Qed.

Lemma valid_cursor_fetchingEffect (h : Hooks) (s : State) :
  valid_cursor h s -> valid_cursor h (fetchingEffect h s).
Proof.
  unfold fetchingEffect. destruct (negb (fetching h)); [|trivial].
  intros _. unfold valid_cursor. pose proof (results_length_nonneg h).
  simpl. lia.
Qed.

Lemma valid_cursor_dispatch (h : Hooks) (s : State) (e : Event) :
  valid_cursor h s -> valid_cursor h (fst (dispatch h s e)).
Proof.
  intros Hvalid.
  replace (fst (dispatch h s e)) with (fst (handle h s e))
    by (unfold dispatch; now destruct (handle h s e)).
  destruct e as [value| |key|index|index|inside]; simpl;
    try exact Hvalid.
  - destruct (accepts h) eqn:Hacc.
    + destruct key;
        try (rewrite handleKeyDown_guard, Hacc; exact Hvalid).
      * pose proof (navigation_step h s ArrowDown Hacc
                                    (or_introl eq_refl) Hvalid).
        unfold valid_cursor. lia.
      * pose proof (navigation_step h s ArrowUp Hacc
                                    (or_intror eq_refl) Hvalid).
        unfold valid_cursor. lia.
    + rewrite handleKeyDown_guard, Hacc. exact Hvalid.
  - destruct (nth_error (visible_rows h s) index) as [row|] eqn:Hrow;
      [|exact Hvalid].
    apply visible_row_is_result in Hrow. destruct Hrow as [_ Hrow].
    assert (Hlt : (index < List.length (results h))%nat)
      by (apply nth_error_Some; congruence).
    unfold valid_cursor, results_length; simpl. lia.
  - destruct (nth_error (visible_rows h s) index); exact Hvalid.
  - destruct inside; exact Hvalid.
Qed.

(** C9. Committing leaves the state as it was, the [focused] flag
    included: Enter returns the state it found, and a click on row i
    returns it too after opening that row's url and blurring the input.
    The effect on [fetching] does not touch the flag either. Hence an
    event that takes [focused] from true to false is the Escape key or
    a mousedown outside the container. *)
Theorem commit_leaves_focused_unchanged (h : Hooks) (s : State) :
  fst (dispatch h s (KeyDown Enter)) = s
  /\ (forall i, fst (dispatch h s (ClickRow i)) = s)
  /\ (forall i row,
        nth_error (visible_rows h s) i = Some row ->
        nth_error (results h) i = Some (row_result row)
        /\ dispatch h s (ClickRow i)
           = (s, [WindowOpen (url (row_result row)) "_blank"; InputBlur]))
  /\ focused (fetchingEffect h s) = focused s
  /\ (forall e,
        focused s = true -> focused (fst (dispatch h s e)) = false ->
        e = KeyDown Escape \/ e = DocumentMouseDown false).
Proof.
  assert (Hfst : forall e, fst (dispatch h s e) = fst (handle h s e)).
  { intros e. unfold dispatch. now destruct (handle h s e). }
  split; [|split; [|split; [|split]]].
  - rewrite Hfst. simpl. rewrite handleKeyDown_guard.
    now destruct (accepts h).
  - intros i. rewrite Hfst. simpl.
    now destruct (nth_error (visible_rows h s) i).
  - intros i row Hrow. split.
    + now apply (visible_row_is_result h s i row).
    + unfold dispatch, handle. rewrite Hrow, scrollEffect_same.
      reflexivity.
  - unfold fetchingEffect. now destruct (negb (fetching h)).
  - intros e Hopen. rewrite Hfst.
    destruct e as [value| |key|index|index|inside]; simpl.
    + congruence.
    + discriminate.
    + rewrite handleKeyDown_guard.
      destruct (accepts h); [|simpl; congruence].
      destruct key; simpl; try congruence. now left.
    + destruct (nth_error (visible_rows h s) index); simpl; congruence.
    + destruct (nth_error (visible_rows h s) index); simpl; congruence.
    + destruct inside; unfold handleClickOutside; simpl;
        [congruence|now right].
Qed.

(** The click test: clicking the row of johnsmith opens his page and
    the panel stays open. *)
Lemma commit_leaves_focused_unchanged_witness :
  dispatch two_results (opened "smith") (ClickRow 1)
  = (opened "smith",
     [WindowOpen "https://github.com/johnsmith" "_blank"; InputBlur])
  /\ focused (fst (dispatch two_results (opened "smith") (ClickRow 1)))
     = true.
Proof.
  destruct (commit_leaves_focused_unchanged two_results (opened "smith"))
    as (_ & Hclick & Hrow & _).
  split.
  - apply (Hrow 1%nat {| row_result := Samples.johnsmith;
                         selected := false |}).
    reflexivity.
  - now rewrite (Hclick 1%nat).
Defined.

(** *** The panel when nothing was found *)

Lemma settled_empty_hooks (engine : ArraySort) (collator : Collator)
      (debounced : string) :
  useHooks debounced
           (Orchestrator.useAutocomplete Samples.settled_empty
                                         Samples.settled_empty)
  = nothing_found debounced.
Proof.
  unfold useHooks, nothing_found, Orchestrator.useAutocomplete; simpl.
  f_equal. unfold Orchestrator.merge, slice0; simpl.
  assert (Hnil : sort SearchResult Orchestrator.compareByName [] = []).
  { apply Permutation_nil, Permutation_sym, sort_permutation. }
  now rewrite Hnil.
Qed.

(** What the panel holds when nothing was found: the message from 4
    characters on, the hint below 3, and nothing at exactly 3. *)
Lemma nothing_found_panel (debounced : string) (cursor : Z) :
  SearchResults (nothing_found debounced) cursor
  = Some (when (3 <? length debounced) (NoResultsFound debounced)
          ++ when (length debounced <? 3) TypeAtLeast3)%list.
Proof.
  unfold SearchResults, nothing_found; simpl.
  now rewrite andb_true_r.
Qed.

Lemma nothing_found_four_or_more (debounced : string) (cursor : Z) :
  3 < length debounced ->
  SearchResults (nothing_found debounced) cursor
  = Some [NoResultsFound debounced].
Proof.
  intros Hlong. rewrite nothing_found_panel.
  replace (3 <? length debounced) with true
    by (symmetry; apply Z.ltb_lt; lia).
  replace (length debounced <? 3) with false
    by (symmetry; apply Z.ltb_ge; lia).
  reflexivity.
Qed.

Lemma nothing_found_exactly_three (debounced : string) (cursor : Z) :
  length debounced = 3 ->
  SearchResults (nothing_found debounced) cursor = Some [].
Proof.
  intros Hthree. rewrite nothing_found_panel, Hthree. reflexivity.
Qed.

(** C6, on the code. The query xyz has 3 characters, so both searches
    are enabled; they settle with no entry and no error; the panel is
    open. The panel is then rendered empty: the no-results message is
    not in it, because the component asks for more than 3 characters
    where the searches ask for at least 3. With 6 characters (xyz123)
    the message is there. *)
Theorem no_results_message_missing_at_three_characters :
  Orchestrator.enabled "xyz" = true
  /\ useHooks "xyz"
       (Orchestrator.useAutocomplete
          (engine := Runtime.forward_engine)
          (collator := Runtime.code_unit_collator)
          Samples.settled_empty Samples.settled_empty)
     = nothing_found "xyz"
  /\ panel (render (nothing_found "xyz") (opened "xyz")) = Some []
  /\ panel (render (nothing_found "xyz123") (opened "xyz123"))
     = Some [NoResultsFound "xyz123"].
Proof. repeat split; reflexivity. Qed.

End WidgetProps.

(* ================================================================= *)
(** ** More on the search gateway *)

Module GatewayExtras.
Import JS Github.

Definition users_request (query : string) : SearchParams :=
  {| q := query; per_page := 50; sort_key := "followers"; order := "desc" |}.

Definition repos_request (query : string) : SearchParams :=
  {| q := query; per_page := 50; sort_key := "stars"; order := "desc" |}.

Lemma long_query_guard (query : string) :
  3 <= length query -> falsy query || (length query <? 3) = false.
Proof.
  intros Hlong. apply orb_false_iff. split.
  - destruct query; [cbv in Hlong; now contradiction Hlong|reflexivity].
  - now apply Z.ltb_ge.
Qed.

(** X1. When the remote search answers, a gateway call on a query of
    3 characters or more is fulfilled with one entry per item, in the
    order of the response: the run made exactly that one request, the
    names are the logins (repository names), the urls the html urls,
    and every entry has the type of its operation. *)
Theorem gateway_fulfilled_maps_every_item
        (github : Octokit) (query : string)
        (users : list GitHubUser) (repos : list GitHubRepo) :
  3 <= length query ->
  rest_search_users github (users_request query) = Fulfilled users ->
  rest_search_repos github (repos_request query) = Fulfilled repos ->
  exists accounts repositories,
    searchUsers github query
    = ([RemoteCall SearchUsers (users_request query)], Fulfilled accounts)
    /\ searchRepositories github query
       = ([RemoteCall SearchRepos (repos_request query)],
          Fulfilled repositories)
    /\ map name accounts = map (fun u => Some (login u)) users
    /\ map url accounts = map gh_user_html_url users
    /\ map name repositories = map (fun r => Some (gh_repo_name r)) repos
    /\ map url repositories = map gh_repo_html_url repos
    /\ Forall (fun r => type r = USER) accounts
    /\ Forall (fun r => type r = REPOSITORY) repositories.
Proof.
  intros Hlong Husers Hrepos.
  exists (map mapGitHubUserToResult users), (map mapGitHubRepoToResult repos).
  pose proof (long_query_guard query Hlong) as Hguard.
  unfold searchUsers, searchRepositories. rewrite Hguard.
  unfold await_users, await_repos, try_catch, bind.
  fold (users_request query). fold (repos_request query).
  rewrite Husers, Hrepos. simpl.
  rewrite !map_map. simpl.
  repeat split; try reflexivity.
  - apply Forall_forall. intros r Hr. apply in_map_iff in Hr.
    now destruct Hr as (u & <- & _).
  - apply Forall_forall. intros r Hr. apply in_map_iff in Hr.
    now destruct Hr as (u & <- & _).
Qed.

Lemma gateway_fulfilled_maps_every_item_witness :
  3 <= length "smith"
  /\ exists accounts repositories,
      searchUsers Samples.github_smith "smith"
      = ([RemoteCall SearchUsers (users_request "smith")], Fulfilled accounts)
      /\ searchRepositories Samples.github_smith "smith"
         = ([RemoteCall SearchRepos (repos_request "smith")],
            Fulfilled repositories)
      /\ map name accounts = [Some "johnsmith"]
      /\ map name repositories = [Some "cool-lib"].
Proof.
  assert (Hlong : 3 <= length "smith") by (vm_compute; discriminate).
  split; [exact Hlong|].
  destruct (gateway_fulfilled_maps_every_item
              Samples.github_smith "smith"
              [Samples.gh_johnsmith] [Samples.gh_cool_lib]
              Hlong eq_refl eq_refl)
    as (accounts & repositories & Hu & Hr & Hnu & _ & Hnr & _).
  exists accounts, repositories.
  repeat split; assumption.
Defined.

(** X2. When the remote search fails, the gateway call is rejected with
    that very error. The run made one request and no second one (it
    does not retry), and logged the error once under the label of its
    operation. *)
Theorem gateway_rejection_is_passed_on
        (github : Octokit) (query : string) (e e' : ErrorValue) :
  3 <= length query ->
  rest_search_users github (users_request query) = Rejected e ->
  rest_search_repos github (repos_request query) = Rejected e' ->
  searchUsers github query
  = ([RemoteCall SearchUsers (users_request query);
      ConsoleError "Error searching GitHub users:" e],
     Rejected e)
  /\ searchRepositories github query
     = ([RemoteCall SearchRepos (repos_request query);
         ConsoleError "Error searching GitHub repositories:" e'],
        Rejected e').
Proof.
  intros Hlong Husers Hrepos.
  pose proof (long_query_guard query Hlong) as Hguard.
  unfold searchUsers, searchRepositories. rewrite Hguard.
  unfold await_users, await_repos, try_catch, bind.
  fold (users_request query). fold (repos_request query).
  rewrite Husers, Hrepos. split; reflexivity.
Qed.

Lemma gateway_rejection_is_passed_on_witness :
  3 <= length "smith"
  /\ snd (searchUsers Samples.github_limited "smith")
     = Rejected (Error "API rate limit exceeded")
  /\ snd (searchRepositories Samples.github_limited "smith")
     = Rejected (Error "API rate limit exceeded").
Proof.
  assert (Hlong : 3 <= length "smith") by (vm_compute; discriminate).
  split; [exact Hlong|].
  destruct (gateway_rejection_is_passed_on
              Samples.github_limited "smith"
              (Error "API rate limit exceeded")
              (Error "API rate limit exceeded")
              Hlong eq_refl eq_refl) as [Hu Hr].
  rewrite Hu, Hr. split; reflexivity.
Defined.

(** X3. The gate of [useQueries] and the guard of the gateway agree: a
    gateway call makes a request exactly when the query is [enabled]
    (3 characters or more), and then it is the one request of its
    operation, whatever the answer. *)
Theorem gateway_requests_follow_the_gate (github : Octokit) (query : string) :
  remote_calls (searchUsers github query)
  = (if Orchestrator.enabled query
     then [RemoteCall SearchUsers (users_request query)] else [])
  /\ remote_calls (searchRepositories github query)
     = (if Orchestrator.enabled query
        then [RemoteCall SearchRepos (repos_request query)] else []).
Proof.
  unfold Orchestrator.enabled.
  destruct (Z.leb_spec 3 (length query)) as [Hlong|Hshort].
  - pose proof (long_query_guard query Hlong) as Hguard.
    unfold searchUsers, searchRepositories. rewrite Hguard.
    unfold await_users, await_repos, try_catch, bind, remote_calls.
    fold (users_request query). fold (repos_request query).
    split.
    + now destruct (rest_search_users github (users_request query)).
    + now destruct (rest_search_repos github (repos_request query)).
  - assert (Hguard : falsy query || (length query <? 3) = true).
    { apply orb_true_iff. right. now apply Z.ltb_lt. }
    unfold searchUsers, searchRepositories. rewrite Hguard.
    split; reflexivity.
Qed.

(** *** Identifiers *)

Lemma toString_injective (n m : Z) : toString n = toString m -> n = m.
Proof.
  unfold toString. intros Heq.
  apply DecimalZ.to_int_inj.
  assert (Hparse : forall z,
             NilZero.int_of_string (NilZero.string_of_int (Z.to_int z))
             = Some (Z.to_int z)).
  { intros z. apply NilZero.isi; destruct z as [|p|p]; simpl;
      try discriminate;
      intros [= Hnil]; now apply (DecimalPos.Unsigned.to_uint_nonnil p). }
  assert (Hsome : Some (Z.to_int n) = Some (Z.to_int m))
    by (rewrite <- !Hparse; now rewrite Heq).
  now injection Hsome.
Qed.

(** X4. Within one gateway response the ids stay unique: items with
    pairwise distinct numeric ids are mapped to entries with pairwise
    distinct [id] strings, for accounts and for repositories. *)
Theorem gateway_ids_stay_unique
        (users : list GitHubUser) (repos : list GitHubRepo) :
  NoDup (map gh_user_id users) ->
  NoDup (map gh_repo_id repos) ->
  NoDup (map id (map mapGitHubUserToResult users))
  /\ NoDup (map id (map mapGitHubRepoToResult repos)).
Proof.
  assert (Hinj : forall l : list Z, NoDup l -> NoDup (map toString l)).
  { intros l Hl. induction Hl as [|z l Hnotin Hl IH]; simpl.
    - constructor.
    - constructor; [|exact IH].
      intros Hin. apply in_map_iff in Hin.
      destruct Hin as (z' & Heq & Hz').
      apply toString_injective in Heq. now subst z'. }
  intros Hu Hr. rewrite !map_map. simpl. split.
  - rewrite <- (map_map gh_user_id toString). now apply Hinj.
  - rewrite <- (map_map gh_repo_id toString). now apply Hinj.
Qed.

Lemma gateway_ids_stay_unique_witness :
  NoDup (map id (map mapGitHubUserToResult
                     [Samples.gh_johnsmith; Samples.gh_janesmith]))
  /\ NoDup (map id (map mapGitHubRepoToResult [Samples.gh_cool_lib])).
Proof.
  apply (gateway_ids_stay_unique
           [Samples.gh_johnsmith; Samples.gh_janesmith]
           [Samples.gh_cool_lib]).
  - repeat constructor; simpl; intuition discriminate.
  - repeat constructor; simpl; intuition.
Defined.

(** X5. Across the two operations the ids do collide: an account and a
    repository carry the same [id] exactly when their numeric ids are
    equal, although they are different entries. *)
Theorem account_and_repository_ids_collide
        (user : GitHubUser) (repo : GitHubRepo) :
  (id (mapGitHubUserToResult user) = id (mapGitHubRepoToResult repo)
   <-> gh_user_id user = gh_repo_id repo)
  /\ mapGitHubUserToResult user <> mapGitHubRepoToResult repo.
Proof.
  split; [split|].
  - simpl. apply toString_injective.
  - simpl. now intros ->.
  - discriminate.
Qed.

End GatewayExtras.

(* ================================================================= *)
(** ** More on the query orchestrator *)

Module OrchestratorExtras.
Import JS Github Orchestrator.
Import Samples Vocabulary.

Lemma StronglySorted_app_cross {A : Type} (R : A -> A -> Prop)
      (l1 l2 : list A) :
  StronglySorted R (l1 ++ l2) ->
  forall a b, In a l1 -> In b l2 -> R a b.
Proof.
  induction l1 as [|x l1 IH]; intros Hsorted a b Ha Hb.
  - destruct Ha.
  - simpl in Hsorted. inversion Hsorted as [|? ? Hrest Hx]; subst.
    destruct Ha as [<-|Ha].
    + rewrite Forall_forall in Hx. apply Hx. apply in_or_app. now right.
    + now apply IH.
Qed.

Lemma StronglySorted_app_left {A : Type} (R : A -> A -> Prop)
      (l1 l2 : list A) :
  StronglySorted R (l1 ++ l2) -> StronglySorted R l1.
Proof.
  induction l1 as [|x l1 IH]; intros Hsorted.
  - constructor.
  - simpl in Hsorted. inversion Hsorted as [|? ? Hrest Hx]; subst.
    constructor; [now apply IH|].
    apply Forall_app in Hx. tauto.
Qed.

(** X6. Whatever the two queries hold, the results are entries of the
    two calls and nothing else: there are min (50, accounts +
    repositories) of them, and together with the entries that were cut
    off they are a rearrangement of the accounts followed by the
    repositories. A query without data counts as the empty list. *)
Theorem results_are_entries_of_the_two_calls
        (engine : ArraySort) (collator : Collator)
        (usersQuery reposQuery : UseQueryResult) :
  let users := nullish (data usersQuery) [] in
  let repositories := nullish (data reposQuery) [] in
  List.length (results (useAutocomplete usersQuery reposQuery))
  = Nat.min 50 (List.length users + List.length repositories)
  /\ exists dropped,
      Permutation (results (useAutocomplete usersQuery reposQuery) ++ dropped)
                  (users ++ repositories).
Proof.
  intros users repositories.
  assert (Heq : results (useAutocomplete usersQuery reposQuery)
                = firstn 50 (sort _ compareByName (users ++ repositories)))
    by reflexivity.
  rewrite Heq. split.
  - rewrite length_firstn.
    rewrite (Permutation_length (sort_permutation _ _ _)).
    now rewrite length_app.
  - exists (skipn 50 (sort _ compareByName (users ++ repositories))).
    rewrite firstn_skipn. apply sort_permutation.
Qed.

(** X7. What the cut to 50 loses, when every entry has a name: the
    results are sorted by name, and every entry that was cut off
    sorts at or after every entry that was kept. The entries lost are
    the last in name order, whatever their rank by followers or
    stars. *)
Theorem cut_keeps_the_first_names
        (engine : ArraySort) (collator : Collator)
        (users repositories : list SearchResult)
        (usersQuery reposQuery : UseQueryResult) :
  Forall named users -> Forall named repositories ->
  data usersQuery = Some users -> data reposQuery = Some repositories ->
  StronglySorted name_le (results (useAutocomplete usersQuery reposQuery))
  /\ exists dropped,
      Permutation (results (useAutocomplete usersQuery reposQuery) ++ dropped)
                  (users ++ repositories)
      /\ forall kept lost,
          In kept (results (useAutocomplete usersQuery reposQuery)) ->
          In lost dropped -> name_le kept lost.
Proof.
  intros Hu Hr Hdu Hdr.
  assert (Heq : results (useAutocomplete usersQuery reposQuery)
                = firstn 50 (stable_sort compare_names
                                         (users ++ repositories))).
  { unfold useAutocomplete; simpl. rewrite Hdu, Hdr; simpl.
    now rewrite OrchestratorProps.merge_named. }
  rewrite Heq.
  set (sorted := stable_sort compare_names (users ++ repositories)).
  assert (Hsorted : StronglySorted name_le sorted).
  { apply (SortFacts.stable_sort_sorted compare_names).
    apply OrchestratorProps.compare_names_consistent. }
  rewrite <- (firstn_skipn 50 sorted) in Hsorted.
  split.
  - now apply StronglySorted_app_left in Hsorted.
  - exists (skipn 50 sorted). split.
    + rewrite firstn_skipn. apply SortFacts.stable_sort_permutation.
    + now apply StronglySorted_app_cross.
Qed.

Lemma cut_keeps_the_first_names_witness :
  let usersQuery := {| data := Some [johnsmith; janesmith];
                       isLoading := false; isFetching := false;
                       error := None |} in
  let reposQuery := {| data := Some [cool_lib]; isLoading := false;
                       isFetching := false; error := None |} in
  Forall named [johnsmith; janesmith]
  /\ StronglySorted (name_le (collator := Runtime.code_unit_collator))
       (results (useAutocomplete (engine := Runtime.swapped_engine)
                                 (collator := Runtime.code_unit_collator)
                                 usersQuery reposQuery)).
Proof.
  intros usersQuery reposQuery.
  assert (Hu : Forall named [johnsmith; janesmith])
    by (repeat constructor; discriminate).
  assert (Hr : Forall named [cool_lib])
    by (repeat constructor; discriminate).
  split; [exact Hu|].
  apply (cut_keeps_the_first_names
           Runtime.swapped_engine Runtime.code_unit_collator
           [johnsmith; janesmith] [cool_lib] usersQuery reposQuery
           Hu Hr eq_refl eq_refl).
Defined.

End OrchestratorExtras.

(* ================================================================= *)
(** ** More on the interaction state machine *)

Module WidgetExtras.
Import JS Github Widget.
Import Screens Vocabulary WidgetProps.

(** *** The rows and the cursor *)

Lemma visible_rows_eq (h : Hooks) (s : State) :
  visible_rows h s
  = if focused s && negb (fetching h && (results_length h =? 0))
    then rows_from 0 (selectedIndex s) (results h)
    else [].
Proof.
  unfold visible_rows, render, SearchResults; simpl.
  destruct (focused s); [|reflexivity].
  destruct (fetching h && (results_length h =? 0)); [reflexivity|].
  simpl. rewrite !flat_map_app.
  assert (Herr : flat_map
                   (fun item => match item with
                                | ResultList _ rows => rows
                                | _ => []
                                end)
                   match error h with
                   | Some e => [ErrorMessage (error_text e)]
                   | None => []
                   end = []) by now destruct (error h).
  rewrite Herr.
  destruct (negb (is_some (error h)) && (3 <? length (debouncedQuery h))
            && (results_length h =? 0));
    destruct (length (debouncedQuery h) <? 3);
    destruct (0 <? results_length h) eqn:Hlen; simpl;
    rewrite ?app_nil_r; try reflexivity;
    (apply Z.ltb_ge in Hlen; unfold results_length in Hlen;
     destruct (results h); [reflexivity|simpl in Hlen; lia]).
Qed.

Lemma rows_from_results (l : list SearchResult) (k cursor : Z) :
  map row_result (rows_from k cursor l) = l.
Proof.
  revert k. induction l as [|r l IH]; intros k; simpl.
  - reflexivity.
  - now rewrite IH.
Qed.

Lemma rows_from_selected (l : list SearchResult) (k cursor : Z) (i : nat)
      (row : Row) :
  nth_error (rows_from k cursor l) i = Some row ->
  selected row = (k + Z.of_nat i =? cursor).
Proof.
  revert k i. induction l as [|r l IH]; intros k i; simpl.
  - destruct i; discriminate.
  - destruct i as [|i].
    + simpl. intros [= <-]. simpl. now rewrite Z.add_0_r.
    + simpl nth_error. intros Hrow. rewrite (IH _ _ Hrow).
      f_equal. lia.
Qed.

Lemma row_selected_iff (h : Hooks) (s : State) (i : nat) (row : Row) :
  nth_error (visible_rows h s) i = Some row ->
  (selected row = true <-> Z.of_nat i = selectedIndex s).
Proof.
  intros Hnth. rewrite visible_rows_eq in Hnth.
  destruct (focused s && negb (fetching h && (results_length h =? 0))).
  - apply rows_from_selected in Hnth. rewrite Hnth.
    rewrite Z.eqb_eq. simpl. tauto.
  - destruct i; discriminate.
Qed.

Lemma no_cursor_no_selected_row (h : Hooks) (s : State) :
  selectedIndex s = -1 ->
  Forall (fun row => selected row = false) (visible_rows h s).
Proof.
  intros Hnone. apply Forall_forall. intros row Hin.
  apply In_nth_error in Hin. destruct Hin as [i Hi].
  apply (row_selected_iff h s i row) in Hi.
  destruct (selected row); [|reflexivity].
  assert (Z.of_nat i = selectedIndex s) by now apply Hi. lia.
Qed.

(** X9. The rows on screen mirror the results: with the panel open and
    results present there is one row per result, in order; the row at
    position i is marked selected exactly when i is the cursor, so at
    most one row is ever marked, and none when the cursor is -1. *)
Theorem rows_mirror_results_and_cursor (h : Hooks) (s : State) :
  (focused s = true -> results h <> [] ->
   map row_result (visible_rows h s) = results h)
  /\ (forall i row,
        nth_error (visible_rows h s) i = Some row ->
        nth_error (results h) i = Some (row_result row)
        /\ (selected row = true <-> Z.of_nat i = selectedIndex s))
  /\ (forall i j row_i row_j,
        nth_error (visible_rows h s) i = Some row_i ->
        nth_error (visible_rows h s) j = Some row_j ->
        selected row_i = true -> selected row_j = true -> i = j)
  /\ (selectedIndex s = -1 ->
      Forall (fun row => selected row = false) (visible_rows h s)).
Proof.
  assert (Hrow : forall i row,
             nth_error (visible_rows h s) i = Some row ->
             nth_error (results h) i = Some (row_result row)
             /\ (selected row = true <-> Z.of_nat i = selectedIndex s)).
  { intros i row Hnth. split.
    - now apply (visible_row_is_result h s i row).
    - now apply (row_selected_iff h s i row). }
  split; [|split; [exact Hrow|split]].
  - intros Hfocused Hne. rewrite visible_rows_eq, Hfocused.
    replace (results_length h =? 0) with false.
    + rewrite andb_false_r. simpl. apply rows_from_results.
    + symmetry. apply not_true_is_false. now rewrite results_length_0.
  - intros i j row_i row_j Hi Hj Hsi Hsj.
    apply Hrow in Hi. apply Hrow in Hj.
    destruct Hi as [_ Hi]. destruct Hj as [_ Hj].
    apply Hi in Hsi. apply Hj in Hsj. lia.
  - apply no_cursor_no_selected_row.
Qed.

Lemma rows_mirror_results_and_cursor_witness :
  map row_result
      (visible_rows two_results
                    (fst (dispatch two_results (opened "smith")
                                   (KeyDown ArrowDown))))
  = [Samples.janesmith; Samples.johnsmith]
  /\ map selected
         (visible_rows two_results
                       (fst (dispatch two_results (opened "smith")
                                      (KeyDown ArrowDown))))
     = [true; false].
Proof.
  split; [|reflexivity].
  apply (rows_mirror_results_and_cursor
           two_results
           (fst (dispatch two_results (opened "smith") (KeyDown ArrowDown)))).
  - reflexivity.
  - discriminate.
Defined.

(** X10. Hover and keyboard share one cursor: hovering a row puts the
    cursor on it, and an Enter pressed next (no fetch in flight) opens
    that row's url. *)
Theorem hover_then_enter_opens_the_hovered_row
        (h : Hooks) (s : State) (i : nat) (row : Row) :
  nth_error (visible_rows h s) i = Some row ->
  fetching h = false ->
  selectedIndex (fst (dispatch h s (MouseEnterRow i))) = Z.of_nat i
  /\ handleKeyDown h (fst (dispatch h s (MouseEnterRow i))) Enter
     = (fst (dispatch h s (MouseEnterRow i)),
        [PreventDefault;
         WindowOpen (url (row_result row)) "_blank";
         InputBlur]).
Proof.
  intros Hrow Hfetching.
  assert (Hs : fst (dispatch h s (MouseEnterRow i))
               = handleMouseEnter (Z.of_nat i) s).
  { unfold dispatch, handle. now rewrite Hrow. }
  rewrite Hs. split; [reflexivity|].
  apply visible_row_is_result in Hrow. destruct Hrow as [_ Hresult].
  assert (Hlt : (i < List.length (results h))%nat)
    by (apply nth_error_Some; congruence).
  assert (Hacc : accepts h = true).
  { apply accepts_iff. split; [|assumption].
    intros Hnil. rewrite Hnil in Hlt. simpl in Hlt. lia. }
  destruct (enter_in_range h (handleMouseEnter (Z.of_nat i) s) Hacc)
    as (result & Hat & Heq).
  { unfold cursor_in_range, results_length. simpl. lia. }
  rewrite Heq. simpl in Hat. unfold at_index in Hat.
  destruct (Z.ltb_spec (Z.of_nat i) 0) as [Hneg|_]; [lia|].
  rewrite Nat2Z.id, Hresult in Hat. now injection Hat as <-.
Qed.

Lemma hover_then_enter_opens_the_hovered_row_witness :
  handleKeyDown two_results
                (fst (dispatch two_results (opened "smith")
                               (MouseEnterRow 1)))
                Enter
  = (fst (dispatch two_results (opened "smith") (MouseEnterRow 1)),
     [PreventDefault;
      WindowOpen "https://github.com/johnsmith" "_blank";
      InputBlur]).
Proof.
  apply (hover_then_enter_opens_the_hovered_row
           two_results (opened "smith") 1
           {| row_result := Samples.johnsmith; selected := false |}).
  - reflexivity.
  - reflexivity.
Defined.

Lemma press_down_up (h : Hooks) (s : State) :
  accepts h = true ->
  press h s [ArrowDown; ArrowUp]
  = setSelectedIndex
      (fun prev =>
         let down := if prev <? results_length h - 1 then prev + 1 else prev
         in if 0 <? down then down - 1 else 0) s.
Proof.
  intros Hacc. simpl. rewrite !handleKeyDown_guard, Hacc. reflexivity.
Qed.

Lemma press_up_down (h : Hooks) (s : State) :
  accepts h = true ->
  press h s [ArrowUp; ArrowDown]
  = setSelectedIndex
      (fun prev =>
         let up := if 0 <? prev then prev - 1 else 0
         in if up <? results_length h - 1 then up + 1 else up) s.
Proof.
  intros Hacc. simpl. rewrite !handleKeyDown_guard, Hacc. reflexivity.
Qed.

(** X11. Away from the ends the two arrows undo each other: down then
    up returns to the same state from any index below the last, and up
    then down from any index above the first. At the ends they do not:
    from the last index down-then-up ends one above it (if there is
    one), and from no selection both orders end on the first item. *)
Theorem arrows_undo_each_other (h : Hooks) (s : State) :
  results h <> [] -> fetching h = false ->
  (0 <= selectedIndex s < results_length h - 1 ->
   press h s [ArrowDown; ArrowUp] = s)
  /\ (0 < selectedIndex s <= results_length h - 1 ->
      press h s [ArrowUp; ArrowDown] = s)
  /\ (selectedIndex s = results_length h - 1 ->
      selectedIndex (press h s [ArrowDown; ArrowUp])
      = Z.max 0 (results_length h - 2))
  /\ (selectedIndex s = -1 ->
      selectedIndex (press h s [ArrowDown; ArrowUp]) = 0
      /\ selectedIndex (press h s [ArrowUp; ArrowDown])
         = Z.min 1 (results_length h - 1)).
Proof.
  intros Hne Hfetching.
  assert (Hacc : accepts h = true) by (apply accepts_iff; now split).
  pose proof (accepts_length h Hacc) as Hlen.
  rewrite (press_down_up h s Hacc), (press_up_down h s Hacc).
  destruct s as [typed cursor open]; unfold setSelectedIndex; simpl.
  split; [|split; [|split]].
  - intros Hrange. f_equal.
    destruct (Z.ltb_spec cursor (results_length h - 1)); [|lia].
    destruct (Z.ltb_spec 0 (cursor + 1)); lia.
  - intros Hrange. f_equal.
    destruct (Z.ltb_spec 0 cursor); [|lia].
    destruct (Z.ltb_spec (cursor - 1) (results_length h - 1)); lia.
  - intros ->.
    destruct (Z.ltb_spec (results_length h - 1) (results_length h - 1));
      [lia|].
    destruct (Z.ltb_spec 0 (results_length h - 1)); lia.
  - intros ->. split.
    + destruct (Z.ltb_spec (-1) (results_length h - 1)); [|lia].
      reflexivity.
    + simpl. destruct (Z.ltb_spec 0 (results_length h - 1)); lia.
Qed.

Lemma arrows_undo_each_other_witness :
  press two_results (fst (handleKeyDown two_results (opened "smith")
                                        ArrowDown))
        [ArrowDown; ArrowUp]
  = fst (handleKeyDown two_results (opened "smith") ArrowDown).
Proof.
  apply (arrows_undo_each_other
           two_results
           (fst (handleKeyDown two_results (opened "smith") ArrowDown))).
  - discriminate.
  - reflexivity.
  - vm_compute. split; [discriminate|reflexivity].
Defined.

(** X12. The effect on [fetching] resets the cursor, and only the
    cursor, each time no fetch is in flight, and does nothing during a
    fetch. Right after it ran, an Enter opens nothing (it is ignored
    during the fetch, and finds no selection after it) and no row is
    marked selected once the fetch is over. *)
Theorem fetching_effect_clears_the_selection (h : Hooks) (s : State) :
  fetchingEffect h s
  = (if fetching h then s
     else {| query := query s; selectedIndex := -1; focused := focused s |})
  /\ ~ commit_fires (snd (handleKeyDown h (fetchingEffect h s) Enter))
  /\ (fetching h = false ->
      Forall (fun row => selected row = false)
             (visible_rows h (fetchingEffect h s))).
Proof.
  assert (Heq : fetchingEffect h s
                = if fetching h then s
                  else {| query := query s; selectedIndex := -1;
                          focused := focused s |}).
  { unfold fetchingEffect. now destruct (fetching h). }
  split; [exact Heq|]. split.
  - intros (u & t & Hin).
    destruct (accepts h) eqn:Hacc.
    + pose proof Hacc as Hacc'. apply accepts_iff in Hacc'.
      destruct Hacc' as [_ Hfetching].
      rewrite Heq, Hfetching in Hin.
      rewrite enter_out_of_range in Hin.
      * simpl in Hin. destruct Hin as [Hin|[]]. discriminate.
      * exact Hacc.
      * unfold cursor_in_range. simpl. lia.
    + rewrite handleKeyDown_guard, Hacc in Hin. destruct Hin.
  - intros Hfetching. rewrite Heq, Hfetching.
    now apply no_cursor_no_selected_row.
Qed.

(** *** What each event may change and cause *)

Lemma dispatch_state (h : Hooks) (s : State) (e : Event) :
  fst (dispatch h s e) = fst (handle h s e).
Proof. unfold dispatch. now destruct (handle h s e). Qed.

Lemma dispatch_effects (h : Hooks) (s : State) (e : Event) :
  snd (dispatch h s e)
  = (snd (handle h s e) ++ scrollEffect h s (fst (handle h s e)))%list.
Proof. unfold dispatch. now destruct (handle h s e). Qed.

(** X13. Within one render, that is against the hooks' values of
    that render, each field of the state has its own events. The text
    of the input changes only on an input change; the cursor moves only
    on an arrow key or a hover over a row; [focused] is turned on only
    by the input receiving focus and turned off only by Escape or a
    mousedown outside the container. So the handler of an input change
    sets the text and nothing else: it leaves the cursor and [focused]
    as they are and fires no effect. What the debounce and the fetch it
    starts do afterwards comes with later renders. *)
Theorem events_change_only_their_field (h : Hooks) (s : State) (e : Event) :
  (query (fst (dispatch h s e)) <> query s -> exists v, e = Change v)
  /\ (selectedIndex (fst (dispatch h s e)) <> selectedIndex s ->
      e = KeyDown ArrowDown \/ e = KeyDown ArrowUp
      \/ exists i, e = MouseEnterRow i)
  /\ (focused s = false -> focused (fst (dispatch h s e)) = true ->
      e = Focus)
  /\ (focused s = true -> focused (fst (dispatch h s e)) = false ->
      e = KeyDown Escape \/ e = DocumentMouseDown false)
  /\ (forall v,
        dispatch h s (Change v)
        = ({| query := v; selectedIndex := selectedIndex s;
              focused := focused s |}, [])).
Proof.
  assert (Hchange : forall v,
             dispatch h s (Change v)
             = ({| query := v; selectedIndex := selectedIndex s;
                   focused := focused s |}, [])).
  { intros v. unfold dispatch, handle, handleQueryChange, setQuery.
    unfold scrollEffect. simpl. now rewrite Z.eqb_refl. }
  split; [|split; [|split; [|split; [|exact Hchange]]]];
    rewrite dispatch_state;
    destruct e as [value| |key|index|index|inside]; simpl;
    try congruence.
  - intros _. now exists value.
  - rewrite handleKeyDown_guard.
    destruct (accepts h); [|simpl; congruence].
    destruct key; simpl; congruence.
  - destruct (nth_error (visible_rows h s) index); simpl; congruence.
  - destruct (nth_error (visible_rows h s) index); simpl; congruence.
  - destruct inside; unfold handleClickOutside; simpl; congruence.
  - rewrite handleKeyDown_guard.
    destruct (accepts h); [|simpl; congruence].
    destruct key; simpl; try congruence; intros _; tauto.
  - destruct (nth_error (visible_rows h s) index); simpl; try congruence.
    intros _. right. right. now exists index.
  - destruct (nth_error (visible_rows h s) index); simpl; congruence.
  - destruct inside; unfold handleClickOutside; simpl; congruence.
  - rewrite handleKeyDown_guard.
    destruct (accepts h); [|simpl; congruence].
    destruct key; simpl; congruence.
  - destruct (nth_error (visible_rows h s) index); simpl; congruence.
  - destruct (nth_error (visible_rows h s) index); simpl; congruence.
  - destruct inside; unfold handleClickOutside; simpl; congruence.
  - rewrite handleKeyDown_guard.
    destruct (accepts h); [|simpl; congruence].
    destruct key; simpl; try congruence. intros _ _. now left.
  - destruct (nth_error (visible_rows h s) index); simpl; congruence.
  - destruct (nth_error (visible_rows h s) index); simpl; congruence.
  - destruct inside; unfold handleClickOutside; simpl; try congruence.
    intros _ _. now right.
Qed.

(** Typing one more letter with janesmith hovered and the panel open:
    the text changes, the cursor and the panel stay. *)
Lemma events_change_only_their_field_witness :
  let hovered := fst (dispatch two_results (opened "smith")
                               (MouseEnterRow 0)) in
  dispatch two_results hovered (Change "smiths")
  = ({| query := "smiths"; selectedIndex := 0; focused := true |}, [])
  /\ (focused hovered = true ->
      focused (fst (dispatch two_results hovered (Change "smiths"))) = false
      -> Change "smiths" = KeyDown Escape
         \/ Change "smiths" = DocumentMouseDown false).
Proof.
  intros hovered.
  destruct (events_change_only_their_field
              two_results hovered (Change "smiths"))
    as (_ & _ & _ & Hoff & Hchange).
  split; [|exact Hoff].
  rewrite (Hchange "smiths"). reflexivity.
Defined.

Lemma in_scrollEffect (h : Hooks) (before after : State) (x : Effect) :
  In x (scrollEffect h before after) ->
  x = ScrollIntoView (selectedIndex after)
  /\ selectedIndex before <> selectedIndex after
  /\ 0 <= selectedIndex after < results_length h
  /\ focused after = true.
Proof.
  unfold scrollEffect.
  destruct (Z.eqb_spec (selectedIndex before) (selectedIndex after));
    [intros []|].
  destruct (Z.leb_spec 0 (selectedIndex after)); simpl; [|intros []].
  destruct (Nat.ltb_spec 0 (List.length (visible_rows h after)));
    simpl; [|intros []].
  destruct (Z.ltb_spec (selectedIndex after) (results_length h));
    simpl; [|intros []].
  intros [<-|[]]. repeat split; try assumption.
  destruct (visible_rows_cases h after) as [Hnil|[Hfocused _]];
    [|assumption].
  rewrite Hnil in *. simpl in *. lia.
Qed.

Lemma handle_opens (h : Hooks) (s : State) (e : Event)
      (target_url target : string) :
  In (WindowOpen target_url target) (snd (handle h s e)) ->
  target = "_blank"
  /\ (exists result, In result (results h) /\ url result = target_url)
  /\ (e = KeyDown Enter \/ exists i, e = ClickRow i).
Proof.
  destruct e as [value| |key|index|index|inside]; simpl;
    try (intros []).
  - rewrite handleKeyDown_guard.
    destruct (accepts h); [|intros []].
    destruct key; simpl;
      [intros [Hin|[]]; discriminate
      |intros [Hin|[]]; discriminate
      |intros [Hin|Hin]; [discriminate|]
      |intros [Hin|[Hin|[]]]; discriminate
      |intros []].
    destruct ((0 <=? selectedIndex s)
              && (selectedIndex s <? results_length h));
      [|destruct Hin].
    destruct (at_index (results h) (selectedIndex s)) as [result|] eqn:Hat;
      [|destruct Hin].
    simpl in Hin. destruct Hin as [Hin|[Hin|[]]]; [|discriminate].
    injection Hin as <- <-.
    split; [reflexivity|]. split; [|now left].
    exists result. split; [|reflexivity].
    unfold at_index in Hat.
    destruct (selectedIndex s <? 0); [discriminate|].
    now apply nth_error_In in Hat.
  - destruct (nth_error (visible_rows h s) index); intros [].
  - destruct (nth_error (visible_rows h s) index) as [row|] eqn:Hrow;
      [|intros []].
    simpl. intros [Hin|[Hin|[]]]; try discriminate.
    injection Hin as <- <-.
    split; [reflexivity|]. split; [|right; now exists index].
    exists (row_result row). split; [|reflexivity].
    apply visible_row_is_result in Hrow. destruct Hrow as [_ Hrow].
    now apply nth_error_In in Hrow.
Qed.

(** X14. A window is opened only by a commit: if an event opens a
    window, the event is Enter or a click on a row, the target is a new
    context, and the url is that of an entry of the current results.
    No other event, and no url from elsewhere, ever reaches
    [window.open]. *)
Theorem window_opens_only_on_commit
        (h : Hooks) (s : State) (e : Event) (target_url target : string) :
  In (WindowOpen target_url target) (snd (dispatch h s e)) ->
  target = "_blank"
  /\ (exists result, In result (results h) /\ url result = target_url)
  /\ (e = KeyDown Enter \/ exists i, e = ClickRow i).
Proof.
  rewrite dispatch_effects. intros Hin.
  apply in_app_or in Hin. destruct Hin as [Hin|Hin].
  - now apply handle_opens in Hin.
  - apply in_scrollEffect in Hin. destruct Hin as [Hin _]. discriminate.
Qed.

Lemma window_opens_only_on_commit_witness :
  In (WindowOpen "https://github.com/johnsmith" "_blank")
     (snd (dispatch two_results (opened "smith") (ClickRow 1)))
  /\ exists result,
      In result (results two_results)
      /\ url result = "https://github.com/johnsmith".
Proof.
  assert (Hin : In (WindowOpen "https://github.com/johnsmith" "_blank")
                   (snd (dispatch two_results (opened "smith") (ClickRow 1))))
    by (simpl; now left).
  split; [exact Hin|].
  apply (window_opens_only_on_commit
           two_results (opened "smith") (ClickRow 1) _ _ Hin).
Defined.

Lemma handle_never_scrolls (h : Hooks) (s : State) (e : Event) (i : Z) :
  ~ In (ScrollIntoView i) (snd (handle h s e)).
Proof.
  destruct e as [value| |key|index|index|inside]; simpl;
    try (intros []).
  - rewrite handleKeyDown_guard.
    destruct (accepts h); [|intros []].
    destruct key; simpl;
      [intros [Hin|[]]; discriminate
      |intros [Hin|[]]; discriminate
      |intros [Hin|Hin]; [discriminate|]
      |intros [Hin|[Hin|[]]]; discriminate
      |intros []].
    destruct ((0 <=? selectedIndex s)
              && (selectedIndex s <? results_length h));
      [|destruct Hin].
    destruct (at_index (results h) (selectedIndex s));
      [|destruct Hin].
    simpl in Hin. destruct Hin as [Hin|[Hin|[]]]; discriminate.
  - destruct (nth_error (visible_rows h s) index); intros [].
  - destruct (nth_error (visible_rows h s) index); simpl;
      [intros [Hin|[Hin|[]]]; discriminate|intros []].
Qed.

(** X15. Scrolling follows the cursor: a row is scrolled into view only
    after an event that moved the cursor, the row is the one at the new
    cursor, it is a row of the list, and the panel is open. An arrow
    down that moves the cursor in an open panel does scroll to the new
    row. *)
Theorem scroll_follows_the_cursor (h : Hooks) (s : State) :
  (forall e i,
      In (ScrollIntoView i) (snd (dispatch h s e)) ->
      i = selectedIndex (fst (dispatch h s e))
      /\ i <> selectedIndex s
      /\ 0 <= i < results_length h
      /\ focused (fst (dispatch h s e)) = true)
  /\ (fetching h = false -> focused s = true ->
      -1 <= selectedIndex s < results_length h - 1 ->
      dispatch h s (KeyDown ArrowDown)
      = (navigateDown h s,
         [PreventDefault; ScrollIntoView (selectedIndex s + 1)])).
Proof.
  split.
  - intros e i. rewrite dispatch_effects, dispatch_state. intros Hin.
    apply in_app_or in Hin. destruct Hin as [Hin|Hin].
    + now apply handle_never_scrolls in Hin.
    + apply in_scrollEffect in Hin.
      destruct Hin as (Heq & Hmoved & Hrange & Hfocused).
      injection Heq as ->. repeat split; try assumption; try lia;
        congruence.
  - intros Hfetching Hfocused Hrange.
    assert (Hne : results h <> []).
    { intros Hnil. unfold results_length in Hrange.
      rewrite Hnil in Hrange. simpl in Hrange. lia. }
    assert (Hacc : accepts h = true) by (apply accepts_iff; now split).
    unfold dispatch, handle. rewrite handleKeyDown_guard, Hacc.
    f_equal. simpl. f_equal.
    unfold scrollEffect, navigateDown. simpl.
    replace (selectedIndex s <? results_length h - 1) with true
      by (symmetry; apply Z.ltb_lt; lia).
    replace (selectedIndex s =? selectedIndex s + 1) with false
      by (symmetry; apply Z.eqb_neq; lia).
    replace (0 <=? selectedIndex s + 1) with true
      by (symmetry; apply Z.leb_le; lia).
    replace (selectedIndex s + 1 <? results_length h) with true
      by (symmetry; apply Z.ltb_lt; lia).
    rewrite visible_rows_eq. simpl. rewrite Hfocused, Hfetching. simpl.
    destruct (results h); [congruence|reflexivity].
Qed.

Lemma scroll_follows_the_cursor_witness :
  dispatch two_results (opened "smith") (KeyDown ArrowDown)
  = (navigateDown two_results (opened "smith"),
     [PreventDefault; ScrollIntoView (selectedIndex (opened "smith") + 1)]).
Proof.
  apply (scroll_follows_the_cursor two_results (opened "smith")).
  - reflexivity.
  - reflexivity.
  - vm_compute. split; [discriminate|reflexivity].
Defined.

(** *** The cursor over a whole session *)

(** What happens to the component between two changes of the results:
    an event of the user, or a run of the effect on [fetching]. *)
Inductive Step : Type :=
| UserEvent (e : Event)
| FetchingEffectRuns.

Definition step (h : Hooks) (s : State) (st : Step) : State :=
  match st with
  | UserEvent e => fst (dispatch h s e)
  | FetchingEffectRuns => fetchingEffect h s
  end.

Definition play (h : Hooks) (s : State) (steps : list Step) : State :=
  fold_left (step h) steps s.

(** X22. The cursor is always -1 or an index into the results: it is
    so when the component mounts, and from a state where it is so no
    sequence of events (typing, focus, any key, hover, click, mousedown)
    and effect runs takes it out of that range, as long as the results
    stay the same. So [results[selectedIndex]] is an entry whenever the
    cursor is not -1. *)
Theorem cursor_is_always_valid (h : Hooks) (s : State) (steps : list Step) :
  valid_cursor h s ->
  valid_cursor h (play h s steps)
  /\ valid_cursor h (play h initial steps)
  /\ (selectedIndex (play h s steps) <> -1 ->
      exists result,
        at_index (results h) (selectedIndex (play h s steps)) = Some result).
Proof.
  assert (Hplay : forall s0, valid_cursor h s0 ->
                             valid_cursor h (play h s0 steps)).
  { unfold play. induction steps as [|st steps IH]; intros s0 Hvalid; simpl.
    - exact Hvalid.
    - apply IH. destruct st as [e|]; simpl.
      + now apply valid_cursor_dispatch.
      + now apply valid_cursor_fetchingEffect. }
  intros Hvalid. split; [now apply Hplay|].
  split; [apply Hplay, valid_cursor_initial|].
  intros Hselected. apply at_index_in_range.
  specialize (Hplay s Hvalid). unfold valid_cursor, results_length in Hplay.
  lia.
Qed.

Lemma cursor_is_always_valid_witness :
  valid_cursor two_results (opened "smith")
  /\ valid_cursor two_results
       (play two_results (opened "smith")
             [UserEvent (KeyDown ArrowDown); UserEvent (MouseEnterRow 1);
              UserEvent (KeyDown ArrowDown); FetchingEffectRuns;
              UserEvent (KeyDown ArrowUp)]).
Proof.
  assert (Hvalid : valid_cursor two_results (opened "smith"))
    by (unfold valid_cursor; vm_compute; split; discriminate).
  split; [exact Hvalid|].
  apply (cursor_is_always_valid
           two_results (opened "smith")
           [UserEvent (KeyDown ArrowDown); UserEvent (MouseEnterRow 1);
            UserEvent (KeyDown ArrowDown); FetchingEffectRuns;
            UserEvent (KeyDown ArrowUp)] Hvalid).
Defined.

(** *** What the panel shows *)

(** The panel in full, with the three tests spelled out. *)
Lemma SearchResults_items (h : Hooks) (cursor : Z) (items : list PanelItem) :
  SearchResults h cursor = Some items ->
  (fetching h = false \/ results h <> [])
  /\ items
     = ((match error h with
         | Some e => [ErrorMessage (error_text e)]
         | None => []
         end)
        ++ when (negb (is_some (error h))
                 && (3 <? length (debouncedQuery h))
                 && (results_length h =? 0))
                (NoResultsFound (debouncedQuery h))
        ++ when (0 <? results_length h)
                (ResultList (fetching h) (rows_from 0 cursor (results h)))
        ++ when (length (debouncedQuery h) <? 3) TypeAtLeast3)%list.
Proof.
  unfold SearchResults.
  destruct (fetching h) eqn:Hfetching; simpl.
  - destruct (results_length h =? 0) eqn:Hlen; [discriminate|].
    intros [= <-]. split; [|reflexivity].
    right. rewrite <- results_length_0. congruence.
  - intros [= <-]. split; [now left|reflexivity].
Qed.

(** X16. The no-results message stands alone: when it is in the panel
    it is the whole panel, it quotes the debounced query, and then
    there is no error, no result, no fetch in flight, and the query has
    more than 3 characters. *)
Theorem no_results_message_stands_alone
        (h : Hooks) (cursor : Z) (items : list PanelItem) (q : string) :
  SearchResults h cursor = Some items ->
  In (NoResultsFound q) items ->
  items = [NoResultsFound q]
  /\ q = debouncedQuery h
  /\ error h = None
  /\ results h = []
  /\ fetching h = false
  /\ 3 < length q.
Proof.
  intros Hpanel Hin.
  apply SearchResults_items in Hpanel. destruct Hpanel as [Hshown ->].
  destruct (error h) as [e|] eqn:Herror; simpl in Hin.
  - destruct Hin as [Hin|Hin]; [discriminate|].
    destruct (0 <? results_length h), (length (debouncedQuery h) <? 3);
      simpl in Hin; intuition discriminate.
  - destruct (Z.ltb_spec 3 (length (debouncedQuery h))) as [Hlong|Hshort];
      destruct (Z.eqb_spec (results_length h) 0) as [Hzero|Hsome];
      simpl in Hin |- *;
      try (destruct (0 <? results_length h),
                    (length (debouncedQuery h) <? 3);
           simpl in Hin; intuition discriminate).
    replace (0 <? results_length h) with false in *
      by (symmetry; apply Z.ltb_ge; lia).
    replace (length (debouncedQuery h) <? 3) with false in *
      by (symmetry; apply Z.ltb_ge; lia).
    simpl in Hin |- *. destruct Hin as [[= <-]|[]].
    assert (Hnil : results h = [])
      by (apply results_length_0; now apply Z.eqb_eq).
    repeat split; try reflexivity; try assumption.
    destruct Hshown as [Hfetching|Hne]; [assumption|contradiction].
Qed.

Lemma no_results_message_stands_alone_witness :
  SearchResults (nothing_found "xyz123") (-1)
  = Some [NoResultsFound "xyz123"]
  /\ 3 < length "xyz123".
Proof.
  assert (Hpanel : SearchResults (nothing_found "xyz123") (-1)
                   = Some [NoResultsFound "xyz123"]) by reflexivity.
  split; [exact Hpanel|].
  apply (no_results_message_stands_alone
           (nothing_found "xyz123") (-1) [NoResultsFound "xyz123"] "xyz123"
           Hpanel).
  now left.
Defined.

(** X17. An error does not hide results: with an error and a non-empty
    result list the panel shows the error message first and the result
    list right after it (dimmed during a fetch), then the hint if the
    query is short, and never the no-results message. *)
Theorem error_does_not_hide_results
        (h : Hooks) (cursor : Z) (e : ErrorValue) :
  error h = Some e -> results h <> [] ->
  SearchResults h cursor
  = Some (ErrorMessage (error_text e)
            :: ResultList (fetching h) (rows_from 0 cursor (results h))
            :: when (length (debouncedQuery h) <? 3) TypeAtLeast3).
Proof.
  intros Herror Hne.
  assert (Hlen : 0 < results_length h).
  { unfold results_length. destruct (results h); [congruence|simpl; lia]. }
  unfold SearchResults. rewrite Herror.
  replace (results_length h =? 0) with false
    by (symmetry; apply Z.eqb_neq; lia).
  replace (0 <? results_length h) with true
    by (symmetry; apply Z.ltb_lt; lia).
  rewrite andb_false_r. reflexivity.
Qed.

Lemma error_does_not_hide_results_witness :
  let h := {| debouncedQuery := "smith";
              results := [Samples.janesmith];
              fetching := false;
              error := Some (Error "API rate limit exceeded") |} in
  SearchResults h 0
  = Some [ErrorMessage "API rate limit exceeded";
          ResultList false [{| row_result := Samples.janesmith;
                               selected := true |}]].
Proof.
  intros h.
  apply (error_does_not_hide_results h 0 (Error "API rate limit exceeded")).
  - reflexivity.
  - discriminate.
Defined.


(** X19. When the panel is there, it carries the hint to type at least
    3 characters exactly when the debounced query is not [enabled],
    that is when no search is run for it. *)
Theorem hint_shown_iff_query_disabled
        (h : Hooks) (cursor : Z) (items : list PanelItem) :
  SearchResults h cursor = Some items ->
  (In TypeAtLeast3 items <-> Orchestrator.enabled (debouncedQuery h) = false).
Proof.
  intros Hpanel.
  apply SearchResults_items in Hpanel. destruct Hpanel as [_ ->].
  unfold Orchestrator.enabled.
  rewrite !in_app_iff.
  destruct (Z.leb_spec 3 (length (debouncedQuery h))) as [Hlong|Hshort].
  - replace (length (debouncedQuery h) <? 3) with false
      by (symmetry; apply Z.ltb_ge; lia).
    split; [|discriminate].
    intros [Hin|[Hin|[Hin|[]]]].
    + destruct (error h); simpl in Hin; intuition discriminate.
    + destruct (negb (is_some (error h))
                && (3 <? length (debouncedQuery h))
                && (results_length h =? 0));
        simpl in Hin; intuition discriminate.
    + destruct (0 <? results_length h);
        simpl in Hin; intuition discriminate.
  - replace (length (debouncedQuery h) <? 3) with true
      by (symmetry; apply Z.ltb_lt; lia).
    split; [reflexivity|].
    intros _. right. right. right. now left.
Qed.

Lemma hint_shown_iff_query_disabled_witness :
  SearchResults (nothing_found "ab") (-1) = Some [TypeAtLeast3]
  /\ (In TypeAtLeast3 [TypeAtLeast3]
      <-> Orchestrator.enabled (debouncedQuery (nothing_found "ab")) = false).
Proof.
  assert (Hpanel : SearchResults (nothing_found "ab") (-1)
                   = Some [TypeAtLeast3]) by reflexivity.
  split; [exact Hpanel|].
  apply (hint_shown_iff_query_disabled
           (nothing_found "ab") (-1) [TypeAtLeast3] Hpanel).
Defined.

(** *** From the two queries to the panel *)



End WidgetExtras.

(* ================================================================= *)
(** ** How gateway entries are shown *)

Module PresentationExtras.
Import JS Github Presentation.

Lemma in_if_truthy (o : option string) (piece : string -> Detail)
      (x : Detail) :
  In x (if_truthy o piece)
  <-> exists text, o = Some text /\ text <> EmptyString /\ x = piece text.
Proof.
  unfold if_truthy. destruct o as [[|c rest]|]; simpl; split.
  - intros [].
  - intros (text & [= <-] & Hne & _). congruence.
  - intros [<-|[]]. exists (String c rest). repeat split. discriminate.
  - intros (text & [= <-] & _ & ->). now left.
  - intros [].
  - intros (text & Hnone & _). discriminate.
Qed.

(** X20. What a repository from the gateway shows under its name. The
    star and fork counts are always there, a count of 0 included, with
    the stars before the forks. The description, the owner and the
    language are there exactly when the gateway record has them and
    they are not the empty string. An account shows no details. *)
Theorem repository_details_of_gateway_entries
        (repo : GitHubRepo) (user : GitHubUser) (selected : bool) :
  details (SearchResultItem (mapGitHubUserToResult user) selected) = None
  /\ exists shown,
      details (SearchResultItem (mapGitHubRepoToResult repo) selected)
      = Some shown
      /\ (exists before after,
             shown = (before
                      ++ [StarsBadge (stargazers_count repo);
                          ForksBadge (forks_count repo)]
                      ++ after)%list
             /\ (forall n, ~ In (StarsBadge n) (before ++ after))
             /\ (forall n, ~ In (ForksBadge n) (before ++ after)))
      /\ (forall text,
             In (DescriptionLine text) shown
             <-> gh_repo_description repo = Some text
                 /\ text <> EmptyString)
      /\ (forall text,
             In (LanguageBadge text) shown
             <-> gh_repo_language repo = Some text /\ text <> EmptyString)
      /\ (forall text,
             In (OwnerBadge text) shown
             <-> (exists o, gh_repo_owner repo = Some o
                            /\ owner_login o = text)
                 /\ text <> EmptyString).
Proof.
  split; [reflexivity|].
  exists (RepositoryDetails
            {| repo_id := toString (gh_repo_id repo);
               repo_name := Some (gh_repo_name repo);
               repo_url := gh_repo_html_url repo;
               owner := option_map owner_login (gh_repo_owner repo);
               ownerAvatar :=
                 option_map owner_avatar_url (gh_repo_owner repo);
               description := gh_repo_description repo;
               stars := Some (stargazers_count repo);
               forks := Some (forks_count repo);
               language := gh_repo_language repo |}).
  split; [reflexivity|].
  unfold RepositoryDetails; simpl.
  split; [|split; [|split]].
  - exists (if_truthy (gh_repo_description repo) DescriptionLine
            ++ if_truthy (option_map owner_login (gh_repo_owner repo))
                         OwnerBadge)%list,
           (if_truthy (gh_repo_language repo) LanguageBadge).
    split; [now rewrite <- app_assoc|].
    split; intros n Hin; rewrite !in_app_iff, !in_if_truthy in Hin;
      destruct Hin as [[Hin|Hin]|Hin];
      destruct Hin as (text & _ & _ & Heq); discriminate.
  - intros text. rewrite !in_app_iff. simpl. rewrite !in_if_truthy.
    split.
    + intros H. repeat (destruct H as [H|H]); try discriminate;
        destruct H as (t & Hsome & Hne & Heq); try discriminate.
      injection Heq as ->. now split.
    + intros [Hsome Hne]. left. now exists text.
  - intros text. rewrite !in_app_iff. simpl. rewrite !in_if_truthy.
    split.
    + intros H. repeat (destruct H as [H|H]); try discriminate;
        destruct H as (t & Hsome & Hne & Heq); try discriminate.
      injection Heq as ->. now split.
    + intros [Hsome Hne]. do 4 right. now exists text.
  - intros text. rewrite !in_app_iff. simpl. rewrite !in_if_truthy.
    split.
    + intros H. repeat (destruct H as [H|H]); try discriminate;
        destruct H as (t & Hsome & Hne & Heq); try discriminate.
      injection Heq as ->. split; [|assumption].
      destruct (gh_repo_owner repo) as [o|]; [|discriminate].
      exists o. split; [reflexivity|]. simpl in Hsome. congruence.
    + intros [(o & Howner & Hlogin) Hne]. right. left.
      exists text. rewrite Howner. simpl. now rewrite Hlogin.
Qed.

(** X21. The icon of a gateway entry: an account shows its avatar
    image, with its login in the alternative text, unless the avatar
    url is the empty string, in which case it shows the placeholder; a
    repository shows the book icon and never its owner's avatar. *)
Theorem icon_of_gateway_entries (user : GitHubUser) (repo : GitHubRepo) :
  ResultIcon (mapGitHubUserToResult user)
  = (if falsy (avatar_url user) then UserIcon
     else AvatarImage (avatar_url user) (login user ++ "'s avatar"))
  /\ ResultIcon (mapGitHubRepoToResult repo) = BookOpenIcon.
Proof.
  split; [|reflexivity].
  simpl. now destruct (avatar_url user).
Qed.

End PresentationExtras.
